(** * plexdrive: the multi-account Google Drive gateway (drive.go)

    A shallow embedding of [drive.go] and the properties of its
    specification.  The Go code talks to the outside world (the Drive API,
    the token file, the operator's terminal, the wall clock, the metadata
    cache); the embedding threads a [World] through every function and asks
    an environment for the answer of each external call.  Every call is
    appended to a trace, so that "which requests were issued, in which
    order" is a statement about the final world.

    The two pagination loops and the perpetual tick loop need not end; they
    carry a bound on their iterations, and a run that uses it up ends in
    [Timeout].  [Open] only hands the pool's transport to the chunk buffer,
    a collaborator outside drive.go, and is left out. *)

From Stdlib Require Import ZArith Lia Ascii String.
From stdpp Require Import base strings list gmap pretty.

Open Scope Z_scope.

(** ** Go base types *)

(** An [error] value is represented by its message. *)
Definition error : Type := string.

(** The contents of a file, Go's [[]byte]. *)
Definition bytes : Type := list Byte.byte.

(** A [time.Time] instant, as its Unix time. *)
Definition Time : Type := Z.

(** Go's [int] and [int64] are 64-bit two's complement integers. *)
Definition int_max : Z := 2 ^ 63 - 1.
Definition wrap_int (z : Z) : Z := (z + 2 ^ 63) mod 2 ^ 64 - 2 ^ 63.

(** The conversion [uint64(x)] of an [int64]. *)
Definition to_uint64 (z : Z) : Z := z mod 2 ^ 64.

(** [len(s)] of a slice. *)
Definition len {A} (l : list A) : Z := Z.of_nat (length l).

(** The line feed written [\n] in the Go source. *)
Definition LF : string := String "010"%char "".

(** ** Data model *)

(** The types of the libraries drive.go builds on, one module per Go
    package, with the fields drive.go reads or writes. *)

Module oauth2.
Record Token : Type := mkToken {
  AccessToken : string;
  TokenType : string;
  RefreshToken : string;
  Expiry : Time
}.

Record Endpoint : Type := mkEndpoint {
  AuthURL : string;
  TokenURL : string
}.

Record Config : Type := mkConfig {
  ClientID : string;
  ClientSecret : string;
  Endpoint_ : Endpoint;
  RedirectURL : string;
  Scopes : list string
}.
End oauth2.

Module http.
(** The [*http.Client] built by [config.Client(ctx, &token)] is
    determined by the credential it carries. *)
Record Client : Type := mkClient {
  config : oauth2.Config;
  token : oauth2.Token
}.

Record Response : Type := mkResponse {
  StatusCode : Z;
  ContentLength : Z
}.
End http.

Module gdrive.
Definition DriveScope : string := "https://www.googleapis.com/auth/drive".

Record Service : Type := mkService {
  client : http.Client
}.

Record ParentReference : Type := mkParentReference {
  ParentId : string
}.

Record File : Type := mkFile {
  Id : string;
  Title : string;
  MimeType : string;
  FileSize : Z;
  ModifiedDate : string;
  Parents : list ParentReference;
  DownloadUrl : string
}.

Definition set_FileSize (f : File) (n : Z) : File :=
  mkFile (Id f) (Title f) (MimeType f) n (ModifiedDate f) (Parents f)
         (DownloadUrl f).

Definition set_ModifiedDate (f : File) (s : string) : File :=
  mkFile (Id f) (Title f) (MimeType f) (FileSize f) s (Parents f)
         (DownloadUrl f).

Record FileList : Type := mkFileList {
  Items : list File;
  NextPageToken : string
}.

(** A [client.Files.List()] call under construction: [.Q(q)] sets the
    filter, [.PageToken(t)] the continuation token. *)
Record FilesListCall : Type := mkFilesListCall {
  service : Service;
  q : option string;
  pageToken : option string
}.

Definition Files_List (c : Service) : FilesListCall :=
  mkFilesListCall c None None.
Definition Q (c : FilesListCall) (s : string) : FilesListCall :=
  mkFilesListCall (service c) (Some s) (pageToken c).
Definition PageToken (c : FilesListCall) (t : string) : FilesListCall :=
  mkFilesListCall (service c) (q c) (Some t).
End gdrive.

(** [Account] is declared by the configuration loader; drive.go reads its
    two fields. *)
Record Account : Type := mkAccount {
  ClientID : string;
  ClientSecret : string
}.

(** [APIObject] is declared next to the cache; [mapDriveToAPIObject] fills
    these seven fields. *)
Record APIObject : Type := mkAPIObject {
  ID : string;
  Parents : list string;
  Name : string;
  IsDir : bool;
  Size : Z;
  MTime : Time;
  DownloadURL : string
}.

(** [Drive].  The [Cache] field is a handle on the metadata store, whose
    contents live in the [World]; [context] is always
    [context.Background()]. *)
Record Drive : Type := mkDrive {
  activeAccountID : Z;
  accounts : list Account;
  tokens : list oauth2.Token;
  configs : list oauth2.Config;
  maxDelay : Z;
  chunkDir : string
}.

Definition set_activeAccountID (d : Drive) (i : Z) : Drive :=
  mkDrive i (accounts d) (tokens d) (configs d) (maxDelay d) (chunkDir d).
Definition set_tokens (d : Drive) (ts : list oauth2.Token) : Drive :=
  mkDrive (activeAccountID d) (accounts d) ts (configs d) (maxDelay d) (chunkDir d).
Definition set_configs (d : Drive) (cs : list oauth2.Config) : Drive :=
  mkDrive (activeAccountID d) (accounts d) (tokens d) cs (maxDelay d) (chunkDir d).

(** ** The outside world *)

(** What the program does to the outside world, one event per call. *)
Inductive Event : Type :=
| EvLog (msg : string)                              (* log.Printf *)
| EvPrint (msg : string)                            (* fmt.Printf *)
| EvNow                                             (* time.Now() *)
| EvTick                                            (* a receive from time.Tick *)
| EvReadFile (path : string)                        (* ioutil.ReadFile *)
| EvWriteFile (path : string) (data : bytes) (perm : Z) (* ioutil.WriteFile *)
| EvScan                                            (* fmt.Scan(&code) *)
| EvExchange (config : oauth2.Config) (code : string) (* config.Exchange *)
| EvList (call : gdrive.FilesListCall)              (* client.Files.List()...Do() *)
| EvGet (client : gdrive.Service) (id : string)     (* client.Files.Get(id).Do() *)
| EvDownload (client : gdrive.Service) (id : string) (* client.Files.Get(id).Download() *)
| EvStore (object : APIObject).                     (* d.Cache.Store(object) *)

(** The library functions that compute without touching the world. *)
Record GoLib : Type := mkGoLib {
  (* time.Parse(time.RFC3339, s) *)
  time_Parse_RFC3339 : string -> error + Time;
  (* t.Format(time.RFC3339) *)
  time_Format_RFC3339 : Time -> string;
  (* json.Marshal(tokens) *)
  json_Marshal : list oauth2.Token -> error + bytes;
  (* json.Unmarshal(data, &tokens): the slice left in [tokens], and the error *)
  json_Unmarshal : bytes -> list oauth2.Token ->
                   list oauth2.Token * option error;
  (* gdrive.New(client) *)
  gdrive_New : http.Client -> error + gdrive.Service;
  (* config.AuthCodeURL(state, oauth2.AccessTypeOffline) *)
  AuthCodeURL : oauth2.Config -> string -> string
}.

(** The answers of the outside world.  An answer may depend on everything
    that happened before the call (the trace so far) and on the call's
    arguments. *)
Record Env : Type := mkEnv {
  time_Now : list Event -> Time;
  ioutil_ReadFile : list Event -> string -> error + bytes;
  ioutil_WriteFile : list Event -> string -> bytes -> Z -> option error;
  fmt_Scan : list Event -> error + string;
  oauth2_Exchange : list Event -> oauth2.Config -> string ->
                    error + oauth2.Token;
  Files_List_Do : list Event -> gdrive.FilesListCall -> error + gdrive.FileList;
  Files_Get_Do : list Event -> gdrive.Service -> string -> error + gdrive.File;
  Files_Get_Download : list Event -> gdrive.Service -> string ->
                       error + http.Response
}.

(** The metadata cache is a collaborator outside drive.go: its state is of
    some type [CacheT], and [Store] transforms it and may report an
    error. *)
Class CacheIface : Type := mkCacheIface {
  CacheT : Type;
  Cache_Store : CacheT -> APIObject -> CacheT * option error
}.

(** ** The monad of drive.go's functions *)

Section Monad.
Context `{CacheIface}.

Record World : Type := mkWorld {
  w_trace : list Event;
  w_cache : CacheT
}.

(** How a call ends. *)
Inductive Res (A : Type) : Type :=
| Ret (a : A)                (* it returns *)
| Panic (msg : string)       (* run-time panic *)
| Exit (msg : string)        (* log.Fatalf: the process exits *)
| Timeout.                   (* the loop bound of the model is used up *)

Definition M (A : Type) : Type := World -> Res A * World.

Definition M_ret {A} (a : A) : M A := fun w => (Ret A a, w).

Definition M_bind {A B} (f : A -> M B) (m : M A) : M B :=
  fun w =>
    match m w with
    | (Ret _ a, w') => f a w'
    | (Panic _ msg, w') => (Panic B msg, w')
    | (Exit _ msg, w') => (Exit B msg, w')
    | (Timeout _, w') => (Timeout B, w')
    end.

Definition panic {A} (msg : string) : M A := fun w => (Panic A msg, w).
Definition timeout {A} : M A := fun w => (Timeout A, w).

(** An external call: the event is recorded, the answer is the
    environment's, given the trace before the call. *)
Definition call {A} (e : Event) (answer : list Event -> A) : M A :=
  fun w => (Ret A (answer (w_trace w)), mkWorld (w_trace w ++ [e]) (w_cache w)).

Definition emit (e : Event) : M unit := call e (fun _ => tt).

(** The world after the further events [evs]. *)
Definition after (w : World) (evs : list Event) : World :=
  mkWorld (w_trace w ++ evs) (w_cache w).
End Monad.

Arguments Ret {_} a.
Arguments Panic {_} msg.
Arguments Exit {_} msg.
Arguments Timeout {_}.

Global Instance M_MRet `{CacheIface} : MRet M := @M_ret _.
Global Instance M_MBind `{CacheIface} : MBind M := @M_bind _.

(** ** drive.go *)

Section DriveGo.
Context `{CacheIface} (lib : GoLib) (env : Env).

(** *** Library calls *)

Definition log_Printf (msg : string) : M unit := emit (EvLog msg).
Definition fmt_Printf (msg : string) : M unit := emit (EvPrint msg).

(** [log.Fatalf]: the message is logged and the process exits. *)
Definition log_Fatalf {A} (msg : string) : M A :=
  fun w => (Exit msg, mkWorld (w_trace w ++ [EvLog msg]) (w_cache w)).

Definition Now : M Time := call EvNow (time_Now env).

(** [s[i]]: a panic when the index is out of range. *)
Definition index {A} (s : list A) (i : Z) : M A :=
  if decide (0 <= i < len s) then
    match s !! Z.to_nat i with
    | Some x => mret x
    | None => panic "index out of range"
    end
  else panic "index out of range".

(** [config.Client(d.context, &token)] *)
Definition Config_Client (config : oauth2.Config) (token : oauth2.Token)
  : http.Client :=
  http.mkClient config token.

(** [for _, x := range xs { acc = body(acc, x) }] *)
Fixpoint forRange {A B} (body : B -> A -> M B) (acc : B) (xs : list A)
  : M B :=
  match xs with
  | [] => mret acc
  | x :: xs' => acc' ← body acc x; forRange body acc' xs'
  end.

(** [d.Cache.Store(object)] *)
Definition Cache_Store_call (object : APIObject) : M (option error) :=
  fun w =>
    let '(c, err) := Cache_Store (w_cache w) object in
    (Ret err, mkWorld (w_trace w ++ [EvStore object]) c).

(** *** mapDriveToAPIObject (lines 298-318) *)
Definition mapDriveToAPIObject (file : gdrive.File) : M APIObject :=
  mtime ← match time_Parse_RFC3339 lib (gdrive.ModifiedDate file) with
          | inr mtime => mret mtime
          | inl _ => Now
          end;
  let parents :=
    foldl (fun parents parent => parents ++ [gdrive.ParentId parent])
          [] (gdrive.Parents file) in
  mret {| ID := gdrive.Id file;
          Parents := parents;
          Name := gdrive.Title file;
          IsDir := bool_decide (gdrive.MimeType file
                                = "application/vnd.google-apps.folder");
          Size := to_uint64 (gdrive.FileSize file);
          MTime := mtime;
          DownloadURL := gdrive.DownloadUrl file |}.

(** *** getClient (lines 242-245) *)
Definition getClient (d : Drive) : M (error + gdrive.Service) :=
  config ← index (configs d) (wrap_int (activeAccountID d - 1));
  token ← index (tokens d) (wrap_int (activeAccountID d - 1));
  mret (gdrive_New lib (Config_Client config token)).

(** *** FileSize (lines 91-108) *)
Definition FileSize (d : Drive) (id : string) : M (Z * option error) :=
  r ← getClient d;
  match r with
  | inl err => mret (0, Some err)
  | inr client =>
    r ← call (EvDownload client id)
             (fun h => Files_Get_Download env h client id);
    match r with
    | inl err => mret (0, Some err)
    | inr httpResponse =>
      let statusCode := http.StatusCode httpResponse in
      if decide (200 = statusCode)
      then mret (http.ContentLength httpResponse, None)
      else mret (0, Some ("Invalid status code " +:+ pretty statusCode))
    end
  end.

(** *** arrayIndex (lines 110-117) *)
Fixpoint arrayIndex_from (p : Z) (values : list string) (value : string)
  : Z :=
  match values with
  | [] => -1
  | v :: values' =>
    if decide (v = value) then p else arrayIndex_from (p + 1) values' value
  end.

Definition arrayIndex (values : list string) (value : string) : Z :=
  arrayIndex_from 0 values value.

(** *** GetObject (lines 126-146) *)
Definition GetObject (d : Drive) (id : string)
  : M (option APIObject * option error) :=
  r ← getClient d;
  match r with
  | inl err => mret (None, Some err)
  | inr client =>
    r ← call (EvGet client id) (fun h => Files_Get_Do env h client id);
    match r with
    | inl err => mret (None, Some err)
    | inr o =>
      o ← (if decide (gdrive.FileSize o = 0) then
             '(fileSize, err) ← FileSize d id;
             let fileSize :=
               match err with
               | Some _ => gdrive.FileSize o
               | None => fileSize
               end in
             mret (gdrive.set_FileSize o fileSize)
           else mret o);
      object ← mapDriveToAPIObject o;
      mret (Some object, None)
    end
  end.

(** *** GetObjectsByParent (lines 149-180)

    [listPages] is the [for { ... }] loop; [fuel] bounds the number of
    its iterations, that is, of pages requested. *)
Fixpoint listPages (fuel : nat) (client : gdrive.Service)
         (parentID : string) (files : list APIObject) (pageToken : string)
  : M (list APIObject) :=
  match fuel with
  | O => timeout
  | S fuel' =>
    let query :=
      gdrive.Q (gdrive.Files_List client)
               ("'" +:+ parentID +:+ "' in parents AND trashed = false") in
    let query :=
      if decide ("" ≠ pageToken) then gdrive.PageToken query pageToken
      else query in
    r ← call (EvList query) (fun h => Files_List_Do env h query);
    match r with
    | inl _ => mret files
    | inr r =>
      files ← forRange
                (fun files file =>
                   object ← mapDriveToAPIObject file;
                   mret (files ++ [object]))
                files (gdrive.Items r);
      let pageToken := gdrive.NextPageToken r in
      if decide ("" = pageToken) then mret files
      else listPages fuel' client parentID files pageToken
    end
  end.

Definition GetObjectsByParent (fuel : nat) (d : Drive) (parentID : string)
  : M (list APIObject * option error) :=
  r ← getClient d;
  match r with
  | inl err => mret ([], Some err)
  | inr client =>
    files ← listPages fuel client parentID [] "";
    mret (files, None)
  end.

(** *** GetFileByNameAndParent (lines 183-200) *)

(** The scan [for _, f := range r.Items { if name == f.Title { return f } }]:
    the item it returns, if any. *)
Fixpoint scanTitle (name : string) (items : list gdrive.File)
  : option gdrive.File :=
  match items with
  | [] => None
  | f :: items' =>
    if decide (name = gdrive.Title f) then Some f else scanTitle name items'
  end.

Definition GetFileByNameAndParent (d : Drive) (name parent : string)
  : M (option gdrive.File * option error) :=
  r ← getClient d;
  match r with
  | inl err => mret (None, Some err)
  | inr client =>
    let query :=
      gdrive.Q (gdrive.Files_List client)
               ("'" +:+ parent +:+ "' in parents AND name = '" +:+ name
                +:+ "' AND trashed = false") in
    r ← call (EvList query) (fun h => Files_List_Do env h query);
    match r with
    | inl err => mret (None, Some err)
    | inr r =>
      match scanTitle name (gdrive.Items r) with
      | Some f => mret (Some f, None)
      | None =>
        mret (None, Some ("Could not find " +:+ name +:+ " in directory "
                          +:+ parent))
      end
    end
  end.

(** *** getTokens (lines 260-268) *)
Definition getTokens (tokenPath : string) : M (list oauth2.Token) :=
  let tokens := [] in
  r ← call (EvReadFile tokenPath) (fun h => ioutil_ReadFile env h tokenPath);
  match r with
  | inl _ => mret tokens
  | inr tokenFile => mret (fst (json_Unmarshal lib tokenFile tokens))
  end.

(** *** storeTokens (lines 270-277); [0644] is 420 *)
Definition storeTokens (tokenPath : string) (tokens : list oauth2.Token)
  : M (option error) :=
  match json_Marshal lib tokens with
  | inl err => mret (Some ("Could not store tokens, " +:+ err))
  | inr j =>
    call (EvWriteFile tokenPath j 420)
         (fun h => ioutil_WriteFile env h tokenPath j 420);;
    mret None
  end.

(** *** getTokenFromWeb (lines 281-296) *)
Definition getTokenFromWeb (config : oauth2.Config) : M oauth2.Token :=
  let authURL := AuthCodeURL lib config "state-token" in
  fmt_Printf ("Go to the following link in your browser " +:+ authURL
              +:+ LF);;
  fmt_Printf "Paste the authorization code: ";;
  r ← call EvScan (fmt_Scan env);
  code ← match r with
         | inl err =>
           log_Fatalf ("Unable to read authorization code " +:+ err)
         | inr code => mret code
         end;
  r ← call (EvExchange config code)
           (fun h => oauth2_Exchange env h config code);
  match r with
  | inl err => log_Fatalf ("Unable to retrieve token from web " +:+ err)
  | inr tok => mret tok
  end.

(** *** authorize (lines 202-240) *)

(** The [oauth2.Config] literal both branches build for an account. *)
Definition accountConfig (account : Account) : oauth2.Config :=
  {| oauth2.ClientID := ClientID account;
     oauth2.ClientSecret := ClientSecret account;
     oauth2.Endpoint_ :=
       {| oauth2.AuthURL := "https://accounts.google.com/o/oauth2/auth";
          oauth2.TokenURL := "https://accounts.google.com/o/oauth2/token" |};
     oauth2.RedirectURL := "urn:ietf:wg:oauth:2.0:oob";
     oauth2.Scopes := [gdrive.DriveScope] |}.

Definition authorize (d : Drive) (tokenPath : string)
  : M (Drive * option error) :=
  ts ← getTokens tokenPath;
  let d := set_tokens d ts in
  if decide (len (tokens d) < len (accounts d)) then
    d ← forRange
          (fun d account =>
             let config := accountConfig account in
             token ← getTokenFromWeb config;
             let d := set_configs d (configs d ++ [config]) in
             let d := set_tokens d (tokens d ++ [token]) in
             mret d)
          d (accounts d);
    err ← storeTokens tokenPath (tokens d);
    match err with
    | Some err => mret (d, Some err)
    | None => mret (d, None)
    end
  else
    d ← forRange
          (fun d account =>
             let config := accountConfig account in
             let d := set_configs d (configs d ++ [config]) in
             mret d)
          d (accounts d);
    mret (d, None).

(** *** NewDriveClient (lines 31-47)

    The background task started by [go drive.startAutoRefresh()] runs
    beside the caller; it is [startAutoRefresh] below. *)
Definition NewDriveClient (accounts : list Account)
           (tokenPath chunkDir : string) : M (option Drive * option error) :=
  let drive :=
    {| activeAccountID := 1;
       accounts := accounts;
       tokens := [];
       configs := [];
       maxDelay := 5000;
       chunkDir := chunkDir |} in
  '(drive, err) ← authorize drive tokenPath;
  match err with
  | Some err => mret (None, Some err)
  | None => mret (Some drive, None)
  end.

(** *** startAutoRefresh (lines 49-88)

    [refreshPages] is the inner [for { ... }] loop of one tick; [fuel]
    bounds the number of pages requested in the tick. *)
Fixpoint refreshPages (fuel : nat) (client : gdrive.Service)
         (checkDate : string) (pageToken : string) : M unit :=
  match fuel with
  | O => timeout
  | S fuel' =>
    let query :=
      gdrive.Q (gdrive.Files_List client)
               ("modifiedTime > '" +:+ checkDate +:+ "'") in
    let query :=
      if decide ("" ≠ pageToken) then gdrive.PageToken query pageToken
      else query in
    r ← call (EvList query) (fun h => Files_List_Do env h query);
    match r with
    | inl _ => mret tt
    | inr r =>
      forRange
        (fun (_ : unit) file =>
           object ← mapDriveToAPIObject file;
           log_Printf ("Updated file " +:+ ID object +:+ " (" +:+ Name object
                       +:+ ")");;
           err ← Cache_Store_call object;
           match err with
           | Some _ => log_Printf ("Could not refresh " +:+ ID object)
           | None => mret tt
           end)
        tt (gdrive.Items r);;
      let pageToken := gdrive.NextPageToken r in
      if decide ("" = pageToken) then mret tt
      else refreshPages fuel' client checkDate pageToken
    end
  end.

(** The body of [for _ = range time.Tick(10 * time.Minute)], from the
    checkpoint [lastCheck] to the next one. *)
Definition refreshTick (fuel : nat) (client : gdrive.Service)
           (lastCheck : Time) : M Time :=
  log_Printf "Checking for updates...";;
  let checkDate := time_Format_RFC3339 lib lastCheck in
  lastCheck ← Now;
  let pageToken := "" in
  refreshPages fuel client checkDate pageToken;;
  mret lastCheck.

(** The first [ticks] iterations of the perpetual loop; the result is the
    checkpoint held when the next tick is awaited. *)
Fixpoint refreshLoop (ticks fuel : nat) (client : gdrive.Service)
         (lastCheck : Time) : M Time :=
  match ticks with
  | O => mret lastCheck
  | S ticks' =>
    emit EvTick;;
    lastCheck ← refreshTick fuel client lastCheck;
    refreshLoop ticks' fuel client lastCheck
  end.

Definition startAutoRefresh (ticks fuel : nat) (d : Drive) : M unit :=
  r ← getClient d;
  match r with
  | inl _ => log_Printf "Could not get client for auto refreshing"
  | inr client =>
    lastCheck ← Now;
    refreshLoop ticks fuel client lastCheck;;
    mret tt
  end.

(** *** rotateAccounts (lines 251-258) *)
Definition rotateAccounts (d : Drive) : M Drive :=
  let d :=
    if decide (wrap_int (activeAccountID d + 1) > len (configs d))
    then set_activeAccountID d 1
    else set_activeAccountID d (wrap_int (activeAccountID d + 1)) in
  log_Printf ("Usage limit exceeded, rotating accounts to account #"
              +:+ pretty (activeAccountID d));;
  mret d.

(** [n] rotations in a row. *)
Fixpoint rotateTimes (n : nat) (d : Drive) : M Drive :=
  match n with
  | O => mret d
  | S n' => d' ← rotateAccounts d; rotateTimes n' d'
  end.

End DriveGo.

(** ** What the functions amount to

    Closed forms of what the loops and the mapper compute; the lemmas
    below show that the functions above return them. *)

Section Outcomes.
Context `{CacheIface} (lib : GoLib) (env : Env).

(** The object [mapDriveToAPIObject] builds, given its modification
    time. *)
Definition mapped_object (file : gdrive.File) (mtime : Time) : APIObject :=
  {| ID := gdrive.Id file;
     Parents := map gdrive.ParentId (gdrive.Parents file);
     Name := gdrive.Title file;
     IsDir := bool_decide (gdrive.MimeType file
                           = "application/vnd.google-apps.folder");
     Size := to_uint64 (gdrive.FileSize file);
     MTime := mtime;
     DownloadURL := gdrive.DownloadUrl file |}.

(** The modification time the mapper uses when the trace so far is [h],
    and the events it adds. *)
Definition mapper_mtime (file : gdrive.File) (h : list Event) : Time :=
  match time_Parse_RFC3339 lib (gdrive.ModifiedDate file) with
  | inr mtime => mtime
  | inl _ => time_Now env h
  end.

Definition mapper_events (file : gdrive.File) : list Event :=
  match time_Parse_RFC3339 lib (gdrive.ModifiedDate file) with
  | inr _ => []
  | inl _ => [EvNow]
  end.

(** The objects a page's items are mapped to, one after the other, when
    the trace before the first is [h]; and the events this adds. *)
Fixpoint mapped_items (h : list Event) (items : list gdrive.File)
  : list APIObject :=
  match items with
  | [] => []
  | file :: items' =>
    mapped_object file (mapper_mtime file h)
    :: mapped_items (h ++ mapper_events file) items'
  end.

Definition mapping_events (items : list gdrive.File) : list Event :=
  flat_map mapper_events items.

(** The request [GetObjectsByParent] sends for a page. *)
Definition listQuery (client : gdrive.Service) (parentID pageToken : string)
  : gdrive.FilesListCall :=
  let query :=
    gdrive.Q (gdrive.Files_List client)
             ("'" +:+ parentID +:+ "' in parents AND trashed = false") in
  if decide ("" ≠ pageToken) then gdrive.PageToken query pageToken
  else query.

(** A listing that starts with page token [tok] when the trace is [h] is
    answered with the pages [pages], each carrying a further page
    token, and then with the error [err]. *)
Fixpoint pages_then_error (client : gdrive.Service) (parentID : string)
         (h : list Event) (tok : string) (pages : list gdrive.FileList)
         (err : error) : Prop :=
  let query := listQuery client parentID tok in
  match pages with
  | [] => Files_List_Do env h query = inl err
  | r :: pages' =>
    Files_List_Do env h query = inr r
    /\ gdrive.NextPageToken r ≠ ""
    /\ pages_then_error client parentID
         (h ++ [EvList query] ++ mapping_events (gdrive.Items r))
         (gdrive.NextPageToken r) pages' err
  end.

(** The objects such a listing accumulates, and the events it adds (the
    last one is the request that fails). *)
Fixpoint listing_objects (client : gdrive.Service) (parentID : string)
         (h : list Event) (tok : string) (pages : list gdrive.FileList)
  : list APIObject :=
  let query := listQuery client parentID tok in
  match pages with
  | [] => []
  | r :: pages' =>
    mapped_items (h ++ [EvList query]) (gdrive.Items r)
    ++ listing_objects client parentID
         (h ++ [EvList query] ++ mapping_events (gdrive.Items r))
         (gdrive.NextPageToken r) pages'
  end.

Fixpoint listing_events (client : gdrive.Service) (parentID : string)
         (tok : string) (pages : list gdrive.FileList) : list Event :=
  let query := listQuery client parentID tok in
  match pages with
  | [] => [EvList query]
  | r :: pages' =>
    [EvList query] ++ mapping_events (gdrive.Items r)
    ++ listing_events client parentID (gdrive.NextPageToken r) pages'
  end.

(** The request the change poller sends for a page. *)
Definition changesQuery (client : gdrive.Service)
           (checkDate pageToken : string) : gdrive.FilesListCall :=
  let query :=
    gdrive.Q (gdrive.Files_List client)
             ("modifiedTime > '" +:+ checkDate +:+ "'") in
  if decide ("" ≠ pageToken) then gdrive.PageToken query pageToken
  else query.

(** What the poller does with the items of one page, when the trace
    before is [h] and the cache is [c]: the objects it hands to the
    cache, the events it adds, and the cache it leaves. *)
Definition refresh_events (file : gdrive.File) (object : APIObject)
           (err : option error) : list Event :=
  mapper_events file
  ++ [EvLog ("Updated file " +:+ ID object +:+ " (" +:+ Name object +:+ ")");
      EvStore object]
  ++ match err with
     | Some _ => [EvLog ("Could not refresh " +:+ ID object)]
     | None => []
     end.

Fixpoint refresh_items (h : list Event) (c : CacheT)
         (items : list gdrive.File)
  : list APIObject * list Event * CacheT :=
  match items with
  | [] => ([], [], c)
  | file :: items' =>
    let object := mapped_object file (mapper_mtime file h) in
    let '(c', err) := Cache_Store c object in
    let evs := refresh_events file object err in
    let '(objects, evs', c'') := refresh_items (h ++ evs) c' items' in
    (object :: objects, evs ++ evs', c'')
  end.

(** The token sequence [getTokens] loads when the trace is [h]. *)
Definition loaded_tokens (h : list Event) (tokenPath : string)
  : list oauth2.Token :=
  match ioutil_ReadFile env h tokenPath with
  | inl _ => []
  | inr tokenFile => fst (json_Unmarshal lib tokenFile [])
  end.

(** The events of one consent exchange: the two prompts, the read of the
    operator's code, the exchange of the code. *)
Definition consent_prompts (config : oauth2.Config) : list Event :=
  [EvPrint ("Go to the following link in your browser "
            +:+ AuthCodeURL lib config "state-token" +:+ LF);
   EvPrint "Paste the authorization code: "].

Definition consent_events (config : oauth2.Config) (code : string)
  : list Event :=
  consent_prompts config ++ [EvScan; EvExchange config code].

(** From the trace [h] on, the operator supplies the codes [codes], one
    per account of [accts] in order, and the service exchanges them for
    the tokens [toks]. *)
Fixpoint consents (h : list Event) (accts : list Account)
         (codes : list string) (toks : list oauth2.Token) : Prop :=
  match accts, codes, toks with
  | [], [], [] => True
  | account :: accts', code :: codes', tok :: toks' =>
    let config := accountConfig account in
    fmt_Scan env (h ++ consent_prompts config) = inr code
    /\ oauth2_Exchange env (h ++ consent_prompts config ++ [EvScan])
                       config code = inr tok
    /\ consents (h ++ consent_events config code) accts' codes' toks'
  | _, _, _ => False
  end.

Fixpoint consents_events (accts : list Account) (codes : list string)
  : list Event :=
  match accts, codes with
  | account :: accts', code :: codes' =>
    consent_events (accountConfig account) code
    ++ consents_events accts' codes'
  | _, _ => []
  end.
End Outcomes.

(** The pool [d] with the configurations [cs] and the tokens [ts]. *)
Definition with_credentials (d : Drive) (cs : list oauth2.Config)
           (ts : list oauth2.Token) : Drive :=
  mkDrive (activeAccountID d) (accounts d) ts cs (maxDelay d) (chunkDir d).

(** The consent exchanges and the file writes among some events, in
    order. *)
Definition exchange_requests (evs : list Event)
  : list (oauth2.Config * string) :=
  omap (fun e => match e with
                 | EvExchange config code => Some (config, code)
                 | _ => None
                 end) evs.

Definition write_requests (evs : list Event) : list (string * bytes) :=
  omap (fun e => match e with
                 | EvWriteFile path data _ => Some (path, data)
                 | _ => None
                 end) evs.

(** A computation only ever adds events to the trace. *)
Definition grows `{CacheIface} {A} (m : M A) : Prop :=
  forall w, exists evs, w_trace (snd (m w)) = w_trace w ++ evs.

(** The cache after [Store] was called on each of [objects] in turn. *)
Definition stored `{CacheIface} (c : CacheT) (objects : list APIObject)
  : CacheT :=
  foldl (fun c object => fst (Cache_Store c object)) c objects.

(** The objects handed to the cache among some events, in order. *)
Definition store_requests (evs : list Event) : list APIObject :=
  omap (fun e => match e with EvStore o => Some o | _ => None end) evs.

(** The list requests among some events, in order. *)
Definition list_requests (evs : list Event) : list gdrive.FilesListCall :=
  omap (fun e => match e with EvList c => Some c | _ => None end) evs.

(** [contains msg s]: the string [s] occurs in [msg]. *)
Definition contains (msg s : string) : Prop :=
  exists before behind : string, msg = before +:+ s +:+ behind.

(** The request [GetFileByNameAndParent] sends. *)
Definition nameQuery (client : gdrive.Service) (name parent : string)
  : gdrive.FilesListCall :=
  gdrive.Q (gdrive.Files_List client)
           ("'" +:+ parent +:+ "' in parents AND name = '" +:+ name
            +:+ "' AND trashed = false").

(** ** drive.go, continued *)

Section DriveGoRest.
Context `{CacheIface}.

(** [config.TokenSource(d.context, &token)] and [oauth2.NewClient]: the
    transport is determined by the credential, as for [config.Client]. *)
Definition Config_TokenSource (config : oauth2.Config) (token : oauth2.Token)
  : oauth2.Config * oauth2.Token :=
  (config, token).

Definition oauth2_NewClient (src : oauth2.Config * oauth2.Token)
  : http.Client :=
  http.mkClient (fst src) (snd src).

(** *** getNativeClient (lines 247-249) *)
Definition getNativeClient (d : Drive) : M http.Client :=
  config ← index (configs d) (wrap_int (activeAccountID d - 1));
  token ← index (tokens d) (wrap_int (activeAccountID d - 1));
  mret (oauth2_NewClient (Config_TokenSource config token)).

End DriveGoRest.

(** ** Further closed forms *)

Section FurtherOutcomes.
Context `{CacheIface} (lib : GoLib) (env : Env).

(** A listing that starts with page token [tok] when the trace is [h] is
    answered with the pages [pages], of which the last, and only the last,
    carries no further page token. *)
Fixpoint pages_to_end (client : gdrive.Service) (parentID : string)
         (h : list Event) (tok : string) (pages : list gdrive.FileList)
  : Prop :=
  let query := listQuery client parentID tok in
  match pages with
  | [] => False
  | r :: pages' =>
    Files_List_Do env h query = inr r
    /\ match pages' with
       | [] => gdrive.NextPageToken r = ""
       | _ :: _ =>
         gdrive.NextPageToken r ≠ ""
         /\ pages_to_end client parentID
              (h ++ [EvList query] ++ mapping_events lib (gdrive.Items r))
              (gdrive.NextPageToken r) pages'
       end
  end.

(** The events of requesting and mapping the pages [pages] one after the
    other. *)
Fixpoint paging_events (client : gdrive.Service) (parentID : string)
         (tok : string) (pages : list gdrive.FileList) : list Event :=
  match pages with
  | [] => []
  | r :: pages' =>
    [EvList (listQuery client parentID tok)]
    ++ mapping_events lib (gdrive.Items r)
    ++ paging_events client parentID (gdrive.NextPageToken r) pages'
  end.

(** A change feed that starts with page token [tok] when the trace is [h]
    and the cache is [c] is answered with the pages [pages], of which only
    the last carries no further page token.  The trace and the cache move
    on as the poller works through each page. *)
Fixpoint changes_to_end (client : gdrive.Service) (checkDate : string)
         (h : list Event) (c : CacheT) (tok : string)
         (pages : list gdrive.FileList) : Prop :=
  let query := changesQuery client checkDate tok in
  match pages with
  | [] => False
  | r :: pages' =>
    Files_List_Do env h query = inr r
    /\ match pages' with
       | [] => gdrive.NextPageToken r = ""
       | _ :: _ =>
         let R := refresh_items lib env (h ++ [EvList query]) c
                                (gdrive.Items r) in
         gdrive.NextPageToken r ≠ ""
         /\ changes_to_end client checkDate
              (h ++ [EvList query] ++ R.1.2) R.2
              (gdrive.NextPageToken r) pages'
       end
  end.

(** What the poller does with these pages: the objects it hands to the
    cache, the events it adds, and the cache it leaves. *)
Fixpoint refresh_pages (client : gdrive.Service) (checkDate : string)
         (h : list Event) (c : CacheT) (tok : string)
         (pages : list gdrive.FileList)
  : list APIObject * list Event * CacheT :=
  let query := changesQuery client checkDate tok in
  match pages with
  | [] => ([], [], c)
  | r :: pages' =>
    let R := refresh_items lib env (h ++ [EvList query]) c
                           (gdrive.Items r) in
    let R' := refresh_pages client checkDate
                (h ++ [EvList query] ++ R.1.2) R.2
                (gdrive.NextPageToken r) pages' in
    (R.1.1 ++ R'.1.1, [EvList query] ++ R.1.2 ++ R'.1.2, R'.2)
  end.

(** The events the poller may add once it holds [client]: log lines, clock
    reads, ticks, cache stores, and list requests made with [client] and
    filtered on a modification time. *)
Definition poller_event (client : gdrive.Service) (e : Event) : Prop :=
  match e with
  | EvLog _ | EvNow | EvTick | EvStore _ => True
  | EvList call =>
    gdrive.service call = client
    /\ exists checkDate,
         gdrive.q call = Some ("modifiedTime > '" +:+ checkDate +:+ "'")
  | _ => False
  end.

End FurtherOutcomes.

(** A run neither panics nor exits the process. *)
Definition no_crash {A} (r : Res A) : Prop :=
  match r with
  | Ret _ | Timeout => True
  | Panic _ | Exit _ => False
  end.

(** A computation adds only events that satisfy [P], and does not crash. *)
Definition adds_only `{CacheIface} {A} (P : Event -> Prop) (m : M A) : Prop :=
  forall w, exists evs,
    w_trace (snd (m w)) = w_trace w ++ evs
    /\ Forall P evs /\ no_crash (fst (m w)).

(** ** A sample world

    Concrete collaborators, library functions and service answers, on
    which the functions above can be run. *)

Module Sample.
(** Modelled from the spec: the metadata cache, declared outside
    drive.go; [Cache.Store] is an upsert by identifier, here into a
    finite map from identifiers to objects. *)
Definition cache : CacheIface :=
  {| CacheT := gmap string APIObject;
     Cache_Store := fun c object => (<[ID object := object]> c, None) |}.

Definition stamp : string := "2017-03-01T12:00:00Z".

(** One timestamp parses; a token is serialized as its access token. *)
Definition lib : GoLib :=
  {| time_Parse_RFC3339 := fun s =>
       if decide (s = stamp) then inr 1488369600
       else inl ("parsing time " +:+ s);
     time_Format_RFC3339 := fun t =>
       if decide (t = 1488369600) then stamp else pretty t;
     json_Marshal := fun ts =>
       inr (flat_map (fun t => list_byte_of_string (oauth2.AccessToken t))
                     ts);
     json_Unmarshal := fun data _ =>
       (map (fun b => oauth2.mkToken (string_of_list_byte [b]) "Bearer" "" 0)
            data, None);
     gdrive_New := fun c => inr (gdrive.mkService c);
     AuthCodeURL := fun config state =>
       oauth2.AuthURL (oauth2.Endpoint_ config) +:+ "?client_id="
       +:+ oauth2.ClientID config +:+ "&state=" +:+ state |}.

(** The clock advances with every event; the operator always pastes a
    code; the service mints a token named after the client. *)
Definition env (tokenFile : error + bytes) (written : option error)
           (listed : gdrive.FilesListCall -> error + gdrive.FileList)
           (got : string -> error + gdrive.File)
           (downloaded : error + http.Response) : Env :=
  {| time_Now := fun h => 1500000000 + Z.of_nat (length h);
     ioutil_ReadFile := fun _ _ => tokenFile;
     ioutil_WriteFile := fun _ _ _ _ => written;
     fmt_Scan := fun _ => inr "4/AAA";
     oauth2_Exchange := fun _ config _ =>
       inr (oauth2.mkToken (oauth2.ClientID config) "Bearer" "r" 0);
     Files_List_Do := fun _ call => listed call;
     Files_Get_Do := fun _ _ id => got id;
     Files_Get_Download := fun _ _ _ => downloaded |}.

Definition folderMime : string := "application/vnd.google-apps.folder".

Definition file (id title mime : string) (size : Z) (date : string)
  : gdrive.File :=
  gdrive.mkFile id title mime size date [gdrive.mkParentReference "root"]
                ("https://drive/" +:+ id).

Definition fileA : gdrive.File := file "a" "a.txt" "text/plain" 10 stamp.
Definition fileB : gdrive.File := file "b" "docs" folderMime 0 "yesterday".
Definition fileC : gdrive.File := file "c" "c.bin" "application/zip" 7 stamp.
Definition fileD : gdrive.File := file "d" "a.txt" "text/plain" 99 stamp.

(** A listing of three pages whose third page cannot be fetched. *)
Definition listed_two_then_error (call : gdrive.FilesListCall)
  : error + gdrive.FileList :=
  match gdrive.pageToken call with
  | None => inr (gdrive.mkFileList [fileA; fileB] "t1")
  | Some t =>
    if decide (t = "t1") then inr (gdrive.mkFileList [fileC] "t2")
    else inl "googleapi: Error 500: backendError"
  end.

(** A listing of three pages whose second page cannot be fetched. *)
Definition listed_one_then_error (call : gdrive.FilesListCall)
  : error + gdrive.FileList :=
  match gdrive.pageToken call with
  | None => inr (gdrive.mkFileList [fileA; fileB] "t1")
  | Some t =>
    if decide (t = "t1") then inl "googleapi: Error 500: backendError"
    else inr (gdrive.mkFileList [fileC] "")
  end.

(** A single page. *)
Definition listed_names (call : gdrive.FilesListCall)
  : error + gdrive.FileList :=
  inr (gdrive.mkFileList [fileC; fileA; fileD] "").

Definition got (id : string) : error + gdrive.File :=
  if decide (id = "b") then inr fileB else inr fileA.

Definition accountsABC : list Account :=
  [mkAccount "A" "sa"; mkAccount "B" "sb"; mkAccount "C" "sc"].

(** A pool of three accounts with the active index [i]. *)
Definition drive (i : Z) : Drive :=
  {| activeAccountID := i;
     accounts := accountsABC;
     tokens := map (fun a => oauth2.mkToken (ClientID a) "Bearer" "r" 0)
                   accountsABC;
     configs := map accountConfig accountsABC;
     maxDelay := 5000;
     chunkDir := "/tmp/chunks" |}.

Definition world : @World cache := @mkWorld cache [] ∅.

(** The token minted for, and the client of, the account named [c]. *)
Definition tokenOf (c : string) : oauth2.Token :=
  oauth2.mkToken c "Bearer" "r" 0.

Definition clientOf (c secret : string) (t : oauth2.Token) : gdrive.Service :=
  gdrive.mkService (http.mkClient (accountConfig (mkAccount c secret)) t).

Definition clientA : gdrive.Service := clientOf "A" "sa" (tokenOf "A").

Definition notFound : http.Response := http.mkResponse 404 0.

(** Environments: a listing that fails on its third page; a change feed
    that fails on its second page; a single page of names; an empty token
    store on a disk that cannot be written; a token store with one token,
    and one with three. *)
Definition envListing : Env :=
  env (inl "no such file") None listed_two_then_error got (inr notFound).
Definition envChanges : Env :=
  env (inl "no such file") None listed_one_then_error got (inr notFound).
Definition envNames : Env :=
  env (inl "no such file") None listed_names got (inr notFound).
Definition envReadOnly : Env :=
  env (inl "no such file") (Some "permission denied") listed_names got
      (inr notFound).
Definition envOneToken : Env :=
  env (inr (list_byte_of_string "X")) None listed_names got (inr notFound).
Definition envThreeTokens : Env :=
  env (inr (list_byte_of_string "XYZ")) None listed_names got (inr notFound).

(** The pool before authorization. *)
Definition drive0 : Drive :=
  {| activeAccountID := 1; accounts := accountsABC; tokens := [];
     configs := []; maxDelay := 5000; chunkDir := "/tmp/chunks" |}.
End Sample.

(** ** Further sample worlds *)

Module SampleMore.
(** A library whose [gdrive.New] refuses every transport. *)
Definition libNoService : GoLib :=
  {| time_Parse_RFC3339 := time_Parse_RFC3339 Sample.lib;
     time_Format_RFC3339 := time_Format_RFC3339 Sample.lib;
     json_Marshal := json_Marshal Sample.lib;
     json_Unmarshal := json_Unmarshal Sample.lib;
     gdrive_New := fun _ => inl "client is nil";
     AuthCodeURL := AuthCodeURL Sample.lib |}.

(** A service that answers no request. *)
Definition envDown : Env :=
  Sample.env (inl "no such file") None
             (fun _ => inl "googleapi: Error 503")
             (fun _ => inl "googleapi: Error 503")
             (inl "dial tcp: i/o timeout").

(** A download answered with status 200 and an unknown length. *)
Definition envChunked : Env :=
  Sample.env (inl "no such file") None Sample.listed_names Sample.got
             (inr (http.mkResponse 200 (-1))).

(** A service that hands out a further page token with every page. *)
Definition envEndless : Env :=
  Sample.env (inl "no such file") None
             (fun _ => inr (gdrive.mkFileList [Sample.fileA] "more"))
             Sample.got (inr Sample.notFound).

(** A listing of three pages, all of which can be fetched. *)
Definition listed_three (call : gdrive.FilesListCall)
  : error + gdrive.FileList :=
  match gdrive.pageToken call with
  | None => inr (gdrive.mkFileList [Sample.fileA; Sample.fileB] "t1")
  | Some t =>
    if decide (t = "t1") then inr (gdrive.mkFileList [Sample.fileC] "t2")
    else inr (gdrive.mkFileList [Sample.fileD] "")
  end.

Definition envThreePages : Env :=
  Sample.env (inl "no such file") None listed_three Sample.got
             (inr Sample.notFound).

(** A library whose serializer refuses every token sequence. *)
Definition libNoMarshal : GoLib :=
  {| time_Parse_RFC3339 := time_Parse_RFC3339 Sample.lib;
     time_Format_RFC3339 := time_Format_RFC3339 Sample.lib;
     json_Marshal := fun _ => inl "json: unsupported value";
     json_Unmarshal := json_Unmarshal Sample.lib;
     gdrive_New := gdrive_New Sample.lib;
     AuthCodeURL := AuthCodeURL Sample.lib |}.

(** An operator who pastes one code and then closes the terminal. *)
Definition envOneCode : Env :=
  {| time_Now := time_Now Sample.envNames;
     ioutil_ReadFile := ioutil_ReadFile Sample.envNames;
     ioutil_WriteFile := ioutil_WriteFile Sample.envNames;
     fmt_Scan := fun h =>
       if decide (length h < 5)%nat then inr "4/AAA" else inl "EOF";
     oauth2_Exchange := oauth2_Exchange Sample.envNames;
     Files_List_Do := Files_List_Do Sample.envNames;
     Files_Get_Do := Files_Get_Do Sample.envNames;
     Files_Get_Download := Files_Get_Download Sample.envNames |}.

(** A service that refuses the code of client "B". *)
Definition envRefusesB : Env :=
  {| time_Now := time_Now Sample.envNames;
     ioutil_ReadFile := ioutil_ReadFile Sample.envNames;
     ioutil_WriteFile := ioutil_WriteFile Sample.envNames;
     fmt_Scan := fmt_Scan Sample.envNames;
     oauth2_Exchange := fun _ config _ =>
       if decide (oauth2.ClientID config = "B") then inl "invalid_grant"
       else inr (Sample.tokenOf (oauth2.ClientID config));
     Files_List_Do := Files_List_Do Sample.envNames;
     Files_Get_Do := Files_Get_Do Sample.envNames;
     Files_Get_Download := Files_Get_Download Sample.envNames |}.

(** A disk that holds no token file until one is written and then reads
    back what was written last; the service mints tokens that the sample
    serializer carries whole. *)
Definition lastWritten (h : list Event) : option bytes :=
  last (omap (fun e => match e with
                       | EvWriteFile _ data _ => Some data
                       | _ => None
                       end) h).

Definition envDisk : Env :=
  {| time_Now := time_Now Sample.envNames;
     ioutil_ReadFile := fun h _ =>
       match lastWritten h with
       | Some data => inr data
       | None => inl "no such file"
       end;
     ioutil_WriteFile := fun _ _ _ _ => None;
     fmt_Scan := fmt_Scan Sample.envNames;
     oauth2_Exchange := fun _ config _ =>
       inr (oauth2.mkToken (oauth2.ClientID config) "Bearer" "" 0);
     Files_List_Do := Files_List_Do Sample.envNames;
     Files_Get_Do := Files_Get_Do Sample.envNames;
     Files_Get_Download := Files_Get_Download Sample.envNames |}.

Definition codes3 : list string := ["4/AAA"; "4/AAA"; "4/AAA"].

End SampleMore.

(** ** Running the monad *)

Section Runs.
Context `{CacheIface}.

Lemma after_nil w : after w [] = w.
Proof. destruct w; unfold after; simpl. by rewrite app_nil_r. Qed.

Lemma after_after w e1 e2 : after (after w e1) e2 = after w (e1 ++ e2).
Proof. unfold after; simpl. by rewrite app_assoc. Qed.

Lemma trace_after w evs : w_trace (after w evs) = w_trace w ++ evs.
Proof. reflexivity. Qed.

Lemma cache_after w evs : w_cache (after w evs) = w_cache w.
Proof. reflexivity. Qed.

Lemma run_ret {A} (a : A) (w : World) : (mret a : M A) w = (Ret a, w).
Proof. reflexivity. Qed.

Lemma run_bind {A B} (m : M A) (f : A -> M B) (w : World) :
  (m ≫= f) w =
  match m w with
  | (Ret a, w') => f a w'
  | (Panic msg, w') => (Panic msg, w')
  | (Exit msg, w') => (Exit msg, w')
  | (Timeout, w') => (Timeout, w')
  end.
Proof. reflexivity. Qed.

Lemma run_bind_ret {A B} (m : M A) (f : A -> M B) w a w' :
  m w = (Ret a, w') -> (m ≫= f) w = f a w'.
Proof. intros Hm. by rewrite run_bind, Hm. Qed.

Lemma run_call {A} (e : Event) (answer : list Event -> A) w :
  call e answer w = (Ret (answer (w_trace w)), after w [e]).
Proof. reflexivity. Qed.

Lemma run_emit (e : Event) w : emit e w = (Ret tt, after w [e]).
Proof. reflexivity. Qed.
End Runs.

Ltac run :=
  repeat (progress
            (rewrite ?run_bind, ?run_call, ?run_emit, ?run_ret, ?after_after;
             cbv beta iota)).

(** * Properties *)

Section Properties.
Context `{CacheIface} (lib : GoLib) (env : Env).

(** ** Helper facts *)

Lemma wrap_int_small z : - 2 ^ 63 <= z < 2 ^ 63 -> wrap_int z = z.
Proof. intros Hz. unfold wrap_int. rewrite Z.mod_small; lia. Qed.

Lemma set_activeAccountID_twice d a b :
  set_activeAccountID (set_activeAccountID d a) b = set_activeAccountID d b.
Proof. reflexivity. Qed.

Lemma set_activeAccountID_same d :
  set_activeAccountID d (activeAccountID d) = d.
Proof. by destruct d. Qed.

Lemma run_rotateAccounts d w :
  1 <= activeAccountID d <= len (configs d) ->
  len (configs d) < int_max ->
  rotateAccounts d w =
  (Ret (set_activeAccountID d
          (activeAccountID d mod len (configs d) + 1)),
   after w [EvLog ("Usage limit exceeded, rotating accounts to account #"
                   +:+ pretty (activeAccountID d mod len (configs d) + 1))]).
Proof.
  intros Hi HN. unfold int_max in HN. unfold rotateAccounts.
  rewrite wrap_int_small by lia.
  assert (Hnext :
    (if decide (activeAccountID d + 1 > len (configs d)) then 1
     else activeAccountID d + 1)
    = activeAccountID d mod len (configs d) + 1).
  { destruct (decide (activeAccountID d + 1 > len (configs d))).
    - replace (activeAccountID d) with (len (configs d)) by lia.
      rewrite Z.mod_same by lia. reflexivity.
    - rewrite Z.mod_small by lia. reflexivity. }
  destruct (decide (activeAccountID d + 1 > len (configs d)));
    simpl; rewrite <- Hnext; reflexivity.
Qed.

Lemma run_rotateTimes k : forall d w,
  1 <= activeAccountID d <= len (configs d) ->
  len (configs d) < int_max ->
  exists w',
    rotateTimes k d w =
    (Ret (set_activeAccountID d
            ((activeAccountID d - 1 + Z.of_nat k) mod len (configs d) + 1)),
     w').
Proof.
  induction k as [|k IH]; intros d w Hi HN.
  - exists w. simpl. rewrite Z.add_0_r, Z.mod_small by lia.
    replace (activeAccountID d - 1 + 1) with (activeAccountID d) by lia.
    by rewrite set_activeAccountID_same.
  - simpl rotateTimes.
    erewrite run_bind_ret by (apply run_rotateAccounts; assumption).
    set (d' := set_activeAccountID d _).
    assert (Hd' : 1 <= activeAccountID d' <= len (configs d')).
    { subst d'. cbn [set_activeAccountID activeAccountID configs].
      assert (0 < len (configs d)) as Hpos by lia.
      pose proof (Z.mod_pos_bound (activeAccountID d) (len (configs d)) Hpos).
      lia. }
    destruct (IH d' (after w [EvLog
               ("Usage limit exceeded, rotating accounts to account #"
                +:+ pretty (activeAccountID d mod len (configs d) + 1))])
                Hd' HN) as [w' Hw'].
    exists w'. rewrite Hw'. subst d'.
    cbn [set_activeAccountID activeAccountID configs].
    rewrite set_activeAccountID_twice. do 3 f_equal.
    replace (activeAccountID d - 1 + Z.of_nat (S k))
      with (activeAccountID d + Z.of_nat k) by lia.
    replace (activeAccountID d mod len (configs d) + 1 - 1 + Z.of_nat k)
      with (activeAccountID d mod len (configs d) + Z.of_nat k) by lia.
    by rewrite Zplus_mod_idemp_l.
Qed.

(** C2: in a pool of [N >= 1] configurations with the active index [i] in
    [1..N], one rotation returns with the active index [(i mod N) + 1]
    (every other field unchanged), that index is again in [1..N], and [k]
    rotations in a row leave the index at [((i - 1 + k) mod N) + 1], so it
    walks through [i, i+1, ..., N, 1, 2, ...] from any start.  [N] is the
    length of a Go slice, below the largest [int]. *)
Theorem rotateAccounts_cycles (d : Drive) (w : World) :
  let N := len (configs d) in
  let i := activeAccountID d in
  1 <= i <= N -> N < int_max ->
  (exists w',
     rotateAccounts d w = (Ret (set_activeAccountID d (i mod N + 1)), w'))
  /\ 1 <= i mod N + 1 <= N
  /\ (forall k : nat,
        exists w',
          rotateTimes k d w =
          (Ret (set_activeAccountID d ((i - 1 + Z.of_nat k) mod N + 1)), w')
          /\ 1 <= (i - 1 + Z.of_nat k) mod N + 1 <= N).
Proof.
  intros N i Hi HN. subst N i. split; [|split].
  - eexists. apply run_rotateAccounts; assumption.
  - pose proof (Z.mod_pos_bound (activeAccountID d) (len (configs d))). lia.
  - intros k. destruct (run_rotateTimes k d w Hi HN) as [w' Hw'].
    exists w'. split; [exact Hw'|].
    pose proof (Z.mod_pos_bound (activeAccountID d - 1 + Z.of_nat k)
                                (len (configs d))).
    lia.
Qed.

(** ** The object mapper *)

Lemma foldl_snoc_map {A B} (f : A -> B) (l : list A) (acc : list B) :
  foldl (fun acc x => acc ++ [f x]) acc l = acc ++ map f l.
Proof.
  revert acc. induction l as [|x l IH]; intros acc; simpl.
  - by rewrite app_nil_r.
  - rewrite IH. by rewrite <- app_assoc.
Qed.

Lemma run_mapDriveToAPIObject file w :
  mapDriveToAPIObject lib env file w =
  (Ret (mapped_object file (mapper_mtime lib env file (w_trace w))),
   after w (mapper_events lib file)).
Proof.
  unfold mapDriveToAPIObject, mapper_mtime, mapper_events, mapped_object.
  rewrite foldl_snoc_map. simpl app.
  destruct (time_Parse_RFC3339 lib (gdrive.ModifiedDate file)) as [e|t].
  - unfold Now. run. reflexivity.
  - run. by rewrite after_nil.
Qed.

(** C9: when the modification timestamp of a raw file does not parse as
    RFC3339, the mapper still returns an object; its modification time is
    the wall-clock time read at that moment (one [time.Now()] call), and
    every other field is what the mapper gives for the same file with a
    timestamp that parses. *)
Theorem mapDriveToAPIObject_unparsable_mtime
        (file : gdrive.File) (w : World) (e : error) :
  time_Parse_RFC3339 lib (gdrive.ModifiedDate file) = inl e ->
  exists object,
    mapDriveToAPIObject lib env file w = (Ret object, after w [EvNow])
    /\ MTime object = time_Now env (w_trace w)
    /\ ID object = gdrive.Id file
    /\ Name object = gdrive.Title file
    /\ DownloadURL object = gdrive.DownloadUrl file
    /\ Size object = to_uint64 (gdrive.FileSize file)
    /\ Parents object = map gdrive.ParentId (gdrive.Parents file)
    /\ (IsDir object = true <->
        gdrive.MimeType file = "application/vnd.google-apps.folder")
    /\ forall (date : string) (t : Time) (w0 : World),
         time_Parse_RFC3339 lib date = inr t ->
         exists object0,
           mapDriveToAPIObject lib env (gdrive.set_ModifiedDate file date) w0
           = (Ret object0, w0)
           /\ MTime object0 = t
           /\ ID object = ID object0
           /\ Name object = Name object0
           /\ DownloadURL object = DownloadURL object0
           /\ Size object = Size object0
           /\ Parents object = Parents object0
           /\ IsDir object = IsDir object0.
Proof.
  intros Hparse.
  exists (mapped_object file (time_Now env (w_trace w))).
  rewrite run_mapDriveToAPIObject.
  unfold mapper_mtime, mapper_events. rewrite Hparse.
  repeat split; try reflexivity.
  - simpl. intros Hd. by apply bool_decide_eq_true in Hd.
  - simpl. intros Hm. by apply bool_decide_eq_true.
  - intros date t w0 Hdate.
    exists (mapped_object (gdrive.set_ModifiedDate file date) t).
    rewrite run_mapDriveToAPIObject.
    unfold mapper_mtime, mapper_events. simpl gdrive.ModifiedDate.
    rewrite Hdate, after_nil. repeat split; reflexivity.
Qed.

(** ** Obtaining a client *)

(** [getClient] reads the pool and nothing else: it leaves the world as it
    is and answers the same in every world. *)
Lemma run_index {A} (s : list A) (i : Z) w :
  index s i w =
  (match (if decide (0 <= i < len s) then s !! Z.to_nat i else None) with
   | Some x => Ret x
   | None => Panic "index out of range"
   end, w).
Proof.
  unfold index.
  destruct (decide (0 <= i < len s)); [destruct (s !! Z.to_nat i)|];
    reflexivity.
Qed.

Lemma getClient_pure d w r w1 :
  getClient lib d w = (r, w1) ->
  w1 = w /\ forall w', getClient lib d w' = (r, w').
Proof.
  unfold getClient. intros Hrun.
  assert (Hall : forall w', getClient lib d w' = (r, w') /\ w1 = w).
  { intros w'. unfold getClient.
    rewrite run_bind, run_index in *.
    destruct (if decide (0 <= wrap_int (activeAccountID d - 1)
                         < len (configs d))
              then configs d !! Z.to_nat (wrap_int (activeAccountID d - 1))
              else None).
    - rewrite run_bind, run_index in *.
      destruct (if decide (0 <= wrap_int (activeAccountID d - 1)
                           < len (tokens d))
                then tokens d !! Z.to_nat (wrap_int (activeAccountID d - 1))
                else None).
      + rewrite run_ret in *. by inversion Hrun.
      + by inversion Hrun.
    - by inversion Hrun. }
  split; [apply (Hall w)|intros w'; apply (Hall w')].
Qed.

Lemma getClient_again d w w' r :
  getClient lib d w = (r, w) -> getClient lib d w' = (r, w').
Proof. intros Hc. by apply (getClient_pure d w r w). Qed.

(** ** FileSize *)

Lemma run_FileSize d id w client :
  getClient lib d w = (Ret (inr client), w) ->
  FileSize lib env d id w =
  (Ret match Files_Get_Download env (w_trace w) client id with
       | inl err => (0, Some err)
       | inr httpResponse =>
         if decide (200 = http.StatusCode httpResponse)
         then (http.ContentLength httpResponse, None)
         else (0, Some ("Invalid status code "
                        +:+ pretty (http.StatusCode httpResponse)))
       end,
   after w [EvDownload client id]).
Proof.
  intros Hc. unfold FileSize.
  rewrite run_bind, Hc. run.
  destruct (Files_Get_Download env (w_trace w) client id) as [err|resp];
    [reflexivity|].
  destruct (decide (200 = http.StatusCode resp)); reflexivity.
Qed.

(** C7: once the client is obtained and the download request is answered
    with a response, [FileSize] returns the response's content length
    with a nil error exactly when the status code is 200; for any other
    status code it returns size 0 and the error
    "Invalid status code <code>", the code printed in decimal. *)
Theorem FileSize_status_code
        (d : Drive) (id : string) (w : World)
        (client : gdrive.Service) (httpResponse : http.Response) :
  getClient lib d w = (Ret (inr client), w) ->
  Files_Get_Download env (w_trace w) client id = inr httpResponse ->
  exists r,
    FileSize lib env d id w = (Ret r, after w [EvDownload client id])
    /\ (r = (http.ContentLength httpResponse, None)
        <-> http.StatusCode httpResponse = 200)
    /\ (http.StatusCode httpResponse <> 200 ->
        r = (0, Some ("Invalid status code "
                      +:+ pretty (http.StatusCode httpResponse)))).
Proof.
  intros Hc Hdl. eexists. split; [by apply run_FileSize|].
  rewrite Hdl.
  destruct (decide (200 = http.StatusCode httpResponse)) as [H200|H200].
  - split; [split; [congruence|reflexivity]|congruence].
  - split; [split; [intros Heq; inversion Heq|congruence]|reflexivity].
Qed.

(** ** GetFileByNameAndParent *)

Lemma scanTitle_first name before f behind :
  gdrive.Title f = name ->
  Forall (fun g => gdrive.Title g <> name) before ->
  scanTitle name (before ++ f :: behind) = Some f.
Proof.
  intros Hf Hbefore. induction Hbefore as [|g before Hg _ IH]; simpl.
  - destruct (decide (name = gdrive.Title f)); congruence.
  - destruct (decide (name = gdrive.Title g)); congruence.
Qed.

Lemma scanTitle_none name items :
  Forall (fun g => gdrive.Title g <> name) items ->
  scanTitle name items = None.
Proof.
  induction 1 as [|g items Hg _ IH]; simpl; [reflexivity|].
  destruct (decide (name = gdrive.Title g)); congruence.
Qed.

Lemma append_assoc (a b c : string) : (a +:+ b) +:+ c = a +:+ (b +:+ c).
Proof.
  induction a as [|x a IH]; [reflexivity|].
  change (String x ((a +:+ b) +:+ c) = String x (a +:+ (b +:+ c))).
  by rewrite IH.
Qed.

Lemma append_empty_r (a : string) : a +:+ "" = a.
Proof.
  induction a as [|x a IH]; [reflexivity|].
  change (String x (a +:+ "") = String x a). by rewrite IH.
Qed.

(** C6: once the client is obtained and the query is answered with a
    list, [GetFileByNameAndParent] returns the first item of the list, in
    the list's order, whose title equals the requested name; when no
    item's title equals it, it returns the error
    "Could not find <name> in directory <parent>", which contains the
    name and the parent identifier. *)
Theorem GetFileByNameAndParent_first_exact_title
        (d : Drive) (name parent : string) (w : World)
        (client : gdrive.Service) (r : gdrive.FileList) :
  getClient lib d w = (Ret (inr client), w) ->
  Files_List_Do env (w_trace w) (nameQuery client name parent) = inr r ->
  exists res,
    GetFileByNameAndParent lib env d name parent w
    = (Ret res, after w [EvList (nameQuery client name parent)])
    /\ (forall before f behind,
          gdrive.Items r = before ++ f :: behind ->
          gdrive.Title f = name ->
          Forall (fun g => gdrive.Title g <> name) before ->
          res = (Some f, None))
    /\ (Forall (fun g => gdrive.Title g <> name) (gdrive.Items r) ->
        exists msg,
          res = (None, Some msg)
          /\ msg = "Could not find " +:+ name +:+ " in directory " +:+ parent
          /\ contains msg name /\ contains msg parent).
Proof.
  intros Hc Hlist.
  exists (match scanTitle name (gdrive.Items r) with
          | Some f => (Some f, None)
          | None => (None, Some ("Could not find " +:+ name
                                 +:+ " in directory " +:+ parent))
          end).
  split; [|split].
  - unfold GetFileByNameAndParent. rewrite run_bind, Hc. run.
    fold (nameQuery client name parent). rewrite Hlist.
    destruct (scanTitle name (gdrive.Items r)); reflexivity.
  - intros before f behind Hitems Hf Hbefore.
    by rewrite Hitems, (scanTitle_first name before f behind).
  - intros Hnone. rewrite (scanTitle_none name _ Hnone).
    eexists. split; [reflexivity|]. split; [reflexivity|]. split.
    + exists "Could not find ", (" in directory " +:+ parent). reflexivity.
    + exists ("Could not find " +:+ name +:+ " in directory "), "".
      by rewrite !append_assoc, append_empty_r.
Qed.

(** ** GetObject *)

Lemma mapper_events_set_FileSize o n :
  mapper_events lib (gdrive.set_FileSize o n) = mapper_events lib o.
Proof. reflexivity. Qed.

Lemma mapper_events_no_download o :
  Forall (fun e => forall c i, e <> EvDownload c i) (mapper_events lib o).
Proof.
  unfold mapper_events.
  destruct (time_Parse_RFC3339 lib (gdrive.ModifiedDate o));
    repeat constructor; discriminate.
Qed.

Lemma set_FileSize_same o : gdrive.set_FileSize o (gdrive.FileSize o) = o.
Proof. by destruct o. Qed.

(** C4: once the client is obtained and the metadata fetch is answered
    with a file [o]: when [o.FileSize] is 0, [GetObject] calls [FileSize]
    (one download request follows the metadata request); whatever that
    call returns, [GetObject] returns an object and a nil error, and when
    the call returns an error the object is mapped from [o] as fetched,
    with size 0.  When [o.FileSize] is not 0, no download request is made
    and the object is mapped from [o] as fetched: its size is
    [uint64(o.FileSize)], the reported size itself when that is not
    negative. *)
Theorem GetObject_size_followup
        (d : Drive) (id : string) (w : World)
        (client : gdrive.Service) (o : gdrive.File) :
  getClient lib d w = (Ret (inr client), w) ->
  Files_Get_Do env (w_trace w) client id = inr o ->
  let w1 := after w [EvGet client id] in
  (gdrive.FileSize o = 0 ->
   exists fileSize err object,
     FileSize lib env d id w1
     = (Ret (fileSize, err), after w1 [EvDownload client id])
     /\ GetObject lib env d id w
        = (Ret (Some object, None),
           after w ([EvGet client id; EvDownload client id]
                    ++ mapper_events lib o))
     /\ (err <> None ->
         object = mapped_object o
                    (mapper_mtime lib env o
                       (w_trace w ++ [EvGet client id; EvDownload client id]))
         /\ Size object = 0)
     /\ (err = None ->
         object = mapped_object (gdrive.set_FileSize o fileSize)
                    (mapper_mtime lib env o
                       (w_trace w ++ [EvGet client id; EvDownload client id]))))
  /\ (gdrive.FileSize o <> 0 ->
      exists object,
        GetObject lib env d id w
        = (Ret (Some object, None),
           after w ([EvGet client id] ++ mapper_events lib o))
        /\ Forall (fun e => forall c i, e <> EvDownload c i)
                  ([EvGet client id] ++ mapper_events lib o)
        /\ object = mapped_object o (mapper_mtime lib env o (w_trace w1))
        /\ Size object = to_uint64 (gdrive.FileSize o)
        /\ (0 <= gdrive.FileSize o < 2 ^ 64 ->
            Size object = gdrive.FileSize o)).
Proof.
  intros Hc Hget w1. split.
  - intros Hzero.
    pose proof (run_FileSize d id w1 client (getClient_again d w w1 _ Hc))
      as Hfs.
    destruct (match Files_Get_Download env (w_trace w1) client id with
              | inl err => (0, Some err)
              | inr httpResponse =>
                if decide (200 = http.StatusCode httpResponse)
                then (http.ContentLength httpResponse, None)
                else (0, Some ("Invalid status code "
                               +:+ pretty (http.StatusCode httpResponse)))
              end) as [fileSize err] eqn:Hans.
    exists fileSize, err.
    exists (mapped_object
              (gdrive.set_FileSize o
                 match err with
                 | Some _ => gdrive.FileSize o
                 | None => fileSize
                 end)
              (mapper_mtime lib env o
                 (w_trace w ++ [EvGet client id; EvDownload client id]))).
    split; [exact Hfs|]. split; [|split].
    + unfold GetObject. rewrite run_bind, Hc. run. rewrite Hget.
      destruct (decide (gdrive.FileSize o = 0)) as [_|Hne]; [|done].
      run. fold w1. rewrite Hfs. unfold w1. run.
      rewrite run_mapDriveToAPIObject. run.
      rewrite mapper_events_set_FileSize. reflexivity.
    + intros Herr. destruct err as [e|]; [|done].
      rewrite set_FileSize_same. split; [reflexivity|].
      simpl. rewrite Hzero. reflexivity.
    + intros ->. reflexivity.
  - intros Hne. eexists. split; [|split; [|split; [reflexivity|split]]].
    + unfold GetObject. rewrite run_bind, Hc. run. rewrite Hget.
      destruct (decide (gdrive.FileSize o = 0)) as [Hz|_]; [done|].
      run. rewrite run_mapDriveToAPIObject. run. reflexivity.
    + apply Forall_app. split; [|apply mapper_events_no_download].
      repeat constructor; discriminate.
    + reflexivity.
    + intros Hrange. simpl. unfold to_uint64. apply Z.mod_small. lia.
Qed.

(** ** GetObjectsByParent *)

Lemma run_forRange_map items : forall files w,
  forRange (fun files file =>
              object ← mapDriveToAPIObject lib env file;
              mret (files ++ [object])) files items w
  = (Ret (files ++ mapped_items lib env (w_trace w) items),
     after w (mapping_events lib items)).
Proof.
  induction items as [|file items IH]; intros files w; simpl.
  - run. by rewrite app_nil_r, after_nil.
  - run. rewrite run_mapDriveToAPIObject. run. rewrite IH. run.
    by rewrite <- app_assoc.
Qed.

Lemma mapped_items_shape h items :
  Forall2 (fun object file => exists mtime, object = mapped_object file mtime)
          (mapped_items lib env h items) items.
Proof.
  revert h. induction items as [|file items IH]; intros h; simpl;
    constructor; eauto.
Qed.

Lemma list_requests_app e1 e2 :
  list_requests (e1 ++ e2) = list_requests e1 ++ list_requests e2.
Proof. apply omap_app. Qed.

Lemma list_requests_mapping items :
  list_requests (mapping_events lib items) = [].
Proof.
  induction items as [|file items IH]; [reflexivity|].
  unfold mapping_events in *. simpl. rewrite list_requests_app, IH.
  unfold mapper_events.
  by destruct (time_Parse_RFC3339 lib (gdrive.ModifiedDate file)).
Qed.

Lemma run_listPages_error client parentID err pages :
  forall fuel files tok w,
    pages_then_error lib env client parentID (w_trace w) tok pages err ->
    (length pages < fuel)%nat ->
    listPages lib env fuel client parentID files tok w
    = (Ret (files ++ listing_objects lib env client parentID
                       (w_trace w) tok pages),
       after w (listing_events lib client parentID tok pages)).
Proof.
  induction pages as [|r pages IH]; intros fuel files tok w Hans Hfuel;
    (destruct fuel as [|fuel]; [simpl in Hfuel; lia|]);
    simpl listPages; fold (listQuery client parentID tok); run.
  - cbn [pages_then_error] in Hans. rewrite Hans. run.
    by rewrite app_nil_r.
  - cbn [pages_then_error] in Hans. destruct Hans as (Hr & Htok & Hrest).
    rewrite Hr. run. rewrite run_forRange_map. run.
    destruct (decide ("" = gdrive.NextPageToken r)) as [Heq|_];
      [congruence|].
    rewrite (IH fuel); [| |simpl in Hfuel; lia].
    + rewrite !trace_after, after_after.
      cbn [listing_objects listing_events].
      by rewrite <- !app_assoc.
    + by rewrite trace_after.
Qed.

Lemma listing_objects_shape client parentID pages : forall h tok,
  Forall2 (fun object file => exists mtime, object = mapped_object file mtime)
          (listing_objects lib env client parentID h tok pages)
          (concat (map gdrive.Items pages)).
Proof.
  induction pages as [|r pages IH]; intros h tok; simpl; [constructor|].
  apply Forall2_app; [apply mapped_items_shape|apply IH].
Qed.

Lemma list_requests_listing client parentID pages : forall tok,
  list_requests (listing_events lib client parentID tok pages)
  = map (listQuery client parentID) (tok :: map gdrive.NextPageToken pages).
Proof.
  induction pages as [|r pages IH]; intros tok; [reflexivity|].
  cbn [listing_events].
  rewrite !list_requests_app, list_requests_mapping, IH. reflexivity.
Qed.

Lemma listing_events_last client parentID err pages : forall h tok,
  pages_then_error lib env client parentID h tok pages err ->
  exists evs0 tok',
    listing_events lib client parentID tok pages
    = evs0 ++ [EvList (listQuery client parentID tok')]
    /\ last (tok :: map gdrive.NextPageToken pages) = Some tok'
    /\ Files_List_Do env (h ++ evs0) (listQuery client parentID tok')
       = inl err.
Proof.
  induction pages as [|r pages IH]; intros h tok Hans;
    cbn [pages_then_error] in Hans.
  - exists [], tok. rewrite app_nil_r. by repeat split.
  - destruct Hans as (_ & _ & Hrest).
    destruct (IH _ _ Hrest) as (evs0 & tok' & Hev & Hlast & Herr).
    exists ([EvList (listQuery client parentID tok)]
            ++ mapping_events lib (gdrive.Items r) ++ evs0), tok'.
    split; [|split].
    + cbn [listing_events]. rewrite Hev. by rewrite <- !app_assoc.
    + exact Hlast.
    + rewrite <- Herr. f_equal. by rewrite <- !app_assoc.
Qed.

(** C1: once the client is obtained, if the first [k] page requests of
    the listing are answered with pages that each carry a further page
    token and the next request is answered with an error, then
    [GetObjectsByParent] returns (whenever more than [k] pages are
    allowed) the objects mapped from the items of those [k] pages, in
    page order and in each page's order, together with a nil error; the
    request that failed is the last event of the call, and [k + 1]
    requests were sent in all. *)
Theorem GetObjectsByParent_page_error_swallowed
        (d : Drive) (parentID : string) (w : World)
        (client : gdrive.Service) (pages : list gdrive.FileList)
        (err : error) (fuel : nat) :
  getClient lib d w = (Ret (inr client), w) ->
  pages_then_error lib env client parentID (w_trace w) "" pages err ->
  (length pages < fuel)%nat ->
  exists files evs,
    GetObjectsByParent lib env fuel d parentID w
    = (Ret (files, None), after w evs)
    /\ files = listing_objects lib env client parentID (w_trace w) "" pages
    /\ Forall2 (fun object file =>
                  exists mtime, object = mapped_object file mtime)
               files (concat (map gdrive.Items pages))
    /\ (exists evs0 tok,
          evs = evs0 ++ [EvList (listQuery client parentID tok)]
          /\ last ("" :: map gdrive.NextPageToken pages) = Some tok
          /\ Files_List_Do env (w_trace w ++ evs0)
                           (listQuery client parentID tok) = inl err)
    /\ list_requests evs
       = map (listQuery client parentID)
             ("" :: map gdrive.NextPageToken pages).
Proof.
  intros Hc Hans Hfuel.
  exists (listing_objects lib env client parentID (w_trace w) "" pages),
         (listing_events lib client parentID "" pages).
  split; [|split; [reflexivity|split; [|split]]].
  - unfold GetObjectsByParent. rewrite run_bind, Hc. run.
    rewrite (run_listPages_error client parentID err pages) by assumption.
    run. reflexivity.
  - apply listing_objects_shape.
  - destruct (listing_events_last client parentID err pages _ _ Hans)
      as (evs0 & tok & Hev & Hlast & Herr).
    by exists evs0, tok.
  - apply list_requests_listing.
Qed.

(** ** The change poller *)

Lemma run_forRange_refresh items : forall w,
  forRange
    (fun (_ : unit) file =>
       object ← mapDriveToAPIObject lib env file;
       log_Printf ("Updated file " +:+ ID object +:+ " (" +:+ Name object
                   +:+ ")");;
       err ← Cache_Store_call object;
       match err with
       | Some _ => log_Printf ("Could not refresh " +:+ ID object)
       | None => mret tt
       end) tt items w
  = (Ret tt,
     mkWorld (w_trace w
              ++ (refresh_items lib env (w_trace w) (w_cache w) items).1.2)
             (refresh_items lib env (w_trace w) (w_cache w) items).2).
Proof.
  induction items as [|file items IH]; intros w.
  - simpl. run. rewrite app_nil_r. by destruct w.
  - cbn [forRange refresh_items]. run. rewrite run_mapDriveToAPIObject.
    run. unfold log_Printf at 1. run.
    unfold Cache_Store_call at 1. rewrite cache_after.
    set (object := mapped_object file
                     (mapper_mtime lib env file (w_trace w))).
    destruct (Cache_Store (w_cache w) object) as [c' err] eqn:Hstore.
    assert (Hstep :
      (match err with
       | Some _ => log_Printf ("Could not refresh " +:+ ID object)
       | None => mret tt
       end)
        (mkWorld (w_trace w ++ mapper_events lib file
                  ++ [EvLog ("Updated file " +:+ ID object +:+ " ("
                             +:+ Name object +:+ ")")]
                  ++ [EvStore object]) c')
      = (Ret tt,
         mkWorld (w_trace w ++ refresh_events lib file object err) c')).
    { unfold refresh_events. destruct err as [e|].
      - unfold log_Printf. run. unfold after. simpl.
        by rewrite <- !app_assoc.
      - run. by rewrite app_nil_r. }
    cbv beta iota. unfold after at 1. cbn [w_trace w_cache].
    rewrite <- !app_assoc.
    rewrite Hstep. rewrite IH. simpl w_trace. simpl w_cache.
    destruct (refresh_items lib env
                (w_trace w ++ refresh_events lib file object err) c' items)
      as [[objects evs'] c''].
    simpl. by rewrite <- !app_assoc.
Qed.

Lemma store_requests_app e1 e2 :
  store_requests (e1 ++ e2) = store_requests e1 ++ store_requests e2.
Proof. apply omap_app. Qed.

Lemma requests_refresh_events file object err :
  store_requests (refresh_events lib file object err) = [object]
  /\ list_requests (refresh_events lib file object err) = [].
Proof.
  unfold refresh_events, mapper_events.
  destruct (time_Parse_RFC3339 lib (gdrive.ModifiedDate file));
    destruct err; split; reflexivity.
Qed.

Lemma refresh_items_spec items : forall h c,
  let '(objects, evs, c') := refresh_items lib env h c items in
  Forall2 (fun object file => exists mtime, object = mapped_object file mtime)
          objects items
  /\ store_requests evs = objects
  /\ list_requests evs = []
  /\ c' = stored c objects.
Proof.
  induction items as [|file items IH]; intros h c.
  - simpl. repeat split. constructor.
  - cbn [refresh_items].
    set (object := mapped_object file (mapper_mtime lib env file h)).
    destruct (Cache_Store c object) as [c' err] eqn:Hstore.
    specialize (IH (h ++ refresh_events lib file object err) c').
    destruct (refresh_items lib env
                (h ++ refresh_events lib file object err) c' items)
      as [[objects evs'] c''].
    destruct IH as (Hshape & Hst & Hls & Hc).
    destruct (requests_refresh_events file object err) as [Hst1 Hls1].
    split; [|split; [|split]].
    + constructor; [by exists (mapper_mtime lib env file h)|exact Hshape].
    + by rewrite store_requests_app, Hst1, Hst.
    + by rewrite list_requests_app, Hls1, Hls.
    + rewrite Hc. unfold stored. simpl. by rewrite Hstore.
Qed.

(** *** Every computation of the poller only adds to the trace *)

Lemma grows_ret {A} (a : A) : grows (mret a : M A).
Proof. intros w. exists []. simpl. by rewrite app_nil_r. Qed.

Lemma grows_call {A} e (answer : list Event -> A) : grows (call e answer).
Proof. intros w. by exists [e]. Qed.

Lemma grows_timeout {A} : grows (timeout : M A).
Proof. intros w. exists []. simpl. by rewrite app_nil_r. Qed.

Lemma grows_bind {A B} (m : M A) (f : A -> M B) :
  grows m -> (forall a, grows (f a)) -> grows (m ≫= f).
Proof.
  intros Hm Hf w. rewrite run_bind. destruct (Hm w) as [evs Hevs].
  destruct (m w) as [[a|msg|msg|] w1]; simpl in Hevs;
    try (exists evs; exact Hevs).
  destruct (Hf a w1) as [evs' Hevs']. exists (evs ++ evs').
  by rewrite Hevs', Hevs, app_assoc.
Qed.

Lemma grows_forRange {A B} (body : B -> A -> M B) xs :
  (forall acc x, grows (body acc x)) -> forall acc, grows (forRange body acc xs).
Proof.
  intros Hbody. induction xs as [|x xs IH]; intros acc; simpl.
  - apply grows_ret.
  - apply grows_bind; [apply Hbody|apply IH].
Qed.

Lemma grows_refreshPages client checkDate fuel : forall pageToken,
  grows (refreshPages lib env fuel client checkDate pageToken).
Proof.
  induction fuel as [|fuel IH]; intros pageToken; simpl.
  - apply grows_timeout.
  - apply grows_bind; [apply grows_call|].
    intros [err|r]; [apply grows_ret|].
    apply grows_bind.
    + intros w. rewrite run_forRange_refresh. eexists. reflexivity.
    + intros _. destruct (decide ("" = gdrive.NextPageToken r));
        [apply grows_ret|apply IH].
Qed.

Lemma run_refreshPages_first client checkDate pageToken fuel w :
  exists res w' rest,
    refreshPages lib env (S fuel) client checkDate pageToken w = (res, w')
    /\ w_trace w'
       = w_trace w ++ [EvList (changesQuery client checkDate pageToken)]
         ++ rest.
Proof.
  simpl refreshPages. fold (changesQuery client checkDate pageToken).
  set (q := changesQuery client checkDate pageToken).
  rewrite run_bind, run_call. cbv beta iota.
  assert (Hk : forall m : M unit, grows m ->
            exists res w' rest,
              m (after w [EvList q]) = (res, w')
              /\ w_trace w' = w_trace w ++ [EvList q] ++ rest).
  { intros m Hm. destruct (Hm (after w [EvList q])) as [rest Hrest].
    destruct (m (after w [EvList q])) as [res w'].
    exists res, w', rest. split; [reflexivity|].
    simpl in Hrest. by rewrite Hrest, <- app_assoc. }
  destruct (Files_List_Do env (w_trace w) q) as [e|r];
    apply Hk; [apply grows_ret|].
  apply grows_bind.
  - intros w0. rewrite run_forRange_refresh. eexists. reflexivity.
  - intros _. destruct (decide ("" = gdrive.NextPageToken r));
      [apply grows_ret|apply grows_refreshPages].
Qed.

Lemma run_refreshTick_first client lastCheck fuel w :
  exists res w' rest,
    refreshTick lib env (S fuel) client lastCheck w = (res, w')
    /\ w_trace w'
       = w_trace w
         ++ [EvLog "Checking for updates..."; EvNow;
             EvList (changesQuery client
                       (time_Format_RFC3339 lib lastCheck) "")]
         ++ rest.
Proof.
  unfold refreshTick, log_Printf, Now. run.
  destruct (run_refreshPages_first client
              (time_Format_RFC3339 lib lastCheck) "" fuel
              (after w [EvLog "Checking for updates..."; EvNow]))
    as (res & w' & rest & Hrun & Htrace).
  simpl app. rewrite Hrun.
  destruct res as [[]|msg|msg|]; run; eexists _, _, rest;
    (split; [reflexivity|]); rewrite Htrace; simpl;
      by rewrite <- app_assoc.
Qed.

Lemma run_refreshPages_page_then_error
      client checkDate pageToken fuel w page1 err :
  let q1 := changesQuery client checkDate pageToken in
  let q2 := changesQuery client checkDate (gdrive.NextPageToken page1) in
  let R := refresh_items lib env (w_trace w ++ [EvList q1]) (w_cache w)
                         (gdrive.Items page1) in
  Files_List_Do env (w_trace w) q1 = inr page1 ->
  gdrive.NextPageToken page1 <> "" ->
  Files_List_Do env (w_trace w ++ [EvList q1] ++ R.1.2) q2 = inl err ->
  refreshPages lib env (S (S fuel)) client checkDate pageToken w
  = (Ret tt,
     mkWorld (w_trace w ++ [EvList q1] ++ R.1.2 ++ [EvList q2]) R.2).
Proof.
  intros q1 q2 R Hp1 Htok Hp2.
  cbn [refreshPages]. fold (changesQuery client checkDate pageToken).
  fold q1. run. rewrite Hp1. run. rewrite run_forRange_refresh.
  cbn [w_trace w_cache after]. fold R. cbv beta iota.
  destruct (decide ("" = gdrive.NextPageToken page1)) as [Heq|_];
    [congruence|].
  fold (changesQuery client checkDate (gdrive.NextPageToken page1)).
  fold q2. run. cbn [w_trace w_cache after].
  rewrite <- !app_assoc. rewrite Hp2. run.
  unfold after. cbn [w_trace w_cache]. by rewrite <- !app_assoc.
Qed.

(** C5: in a poll tick whose first page request is answered with a page
    that carries a further page token and whose second page request is
    answered with an error, the tick returns (whenever two page requests
    are allowed): every item of the first page has been mapped and handed
    to [Cache.Store], in the page's order, before the second request was
    sent; exactly two list requests were sent, the first without a page
    token and the second with the token of page 1; nothing is requested
    after the failure.  The next tick then begins with a list request
    that carries no page token. *)
Theorem refreshTick_page_failure_ends_tick
        (client : gdrive.Service) (lastCheck : Time) (w : World)
        (page1 : gdrive.FileList) (err : error) (fuel : nat) :
  let checkDate := time_Format_RFC3339 lib lastCheck in
  let now := time_Now env (w_trace w ++ [EvLog "Checking for updates..."]) in
  let h1 := w_trace w ++ [EvLog "Checking for updates..."; EvNow] in
  let q1 := changesQuery client checkDate "" in
  let q2 := changesQuery client checkDate (gdrive.NextPageToken page1) in
  let R := refresh_items lib env (h1 ++ [EvList q1]) (w_cache w)
                         (gdrive.Items page1) in
  let evs := [EvLog "Checking for updates..."; EvNow; EvList q1]
             ++ R.1.2 ++ [EvList q2] in
  Files_List_Do env h1 q1 = inr page1 ->
  gdrive.NextPageToken page1 <> "" ->
  Files_List_Do env (h1 ++ [EvList q1] ++ R.1.2) q2 = inl err ->
  (2 <= fuel)%nat ->
  refreshTick lib env fuel client lastCheck w
  = (Ret now, mkWorld (w_trace w ++ evs) R.2)
  /\ Forall2 (fun object file =>
                exists mtime, object = mapped_object file mtime)
             R.1.1 (gdrive.Items page1)
  /\ store_requests evs = R.1.1
  /\ R.2 = stored (w_cache w) R.1.1
  /\ list_requests evs = [q1; q2]
  /\ gdrive.pageToken q1 = None
  /\ gdrive.pageToken q2 = Some (gdrive.NextPageToken page1)
  /\ exists res w2 rest,
       refreshTick lib env fuel client now (mkWorld (w_trace w ++ evs) R.2)
       = (res, w2)
       /\ w_trace w2
          = (w_trace w ++ evs)
            ++ [EvLog "Checking for updates..."; EvNow;
                EvList (changesQuery client
                          (time_Format_RFC3339 lib now) "")]
            ++ rest
       /\ gdrive.pageToken
            (changesQuery client (time_Format_RFC3339 lib now) "") = None.
Proof.
  intros checkDate now h1 q1 q2 R evs Hp1 Htok Hp2 Hfuel.
  destruct fuel as [|[|fuel]]; [lia|lia|].
  pose proof (refresh_items_spec (gdrive.Items page1)
                (h1 ++ [EvList q1]) (w_cache w)) as Hspec.
  fold R in Hspec.
  assert (Hrun :
    refreshTick lib env (S (S fuel)) client lastCheck w
    = (Ret now, mkWorld (w_trace w ++ evs) R.2)).
  { unfold refreshTick, log_Printf, Now. run. simpl app.
    pose proof (run_refreshPages_page_then_error client checkDate "" fuel
                  (after w [EvLog "Checking for updates..."; EvNow])
                  page1 err Hp1 Htok Hp2) as Hpages.
    fold checkDate. rewrite Hpages. run.
    unfold after, evs, h1. cbn [w_trace w_cache].
    subst R q1 q2 now h1. rewrite <- !app_assoc. reflexivity. }
  destruct R as [[objects evs1] c1] eqn:HR.
  destruct Hspec as (Hshape & Hst & Hls & Hc).
  cbn [fst snd] in *.
  split; [exact Hrun|split; [exact Hshape|split; [|split; [exact Hc|split;
    [|split; [reflexivity|split]]]]]].
  - subst evs.
    change [EvLog "Checking for updates..."; EvNow; EvList q1]
      with ([EvLog "Checking for updates..."; EvNow; EvList q1] ++ []).
    rewrite !store_requests_app, Hst. simpl. by rewrite app_nil_r.
  - subst evs.
    change [EvLog "Checking for updates..."; EvNow; EvList q1]
      with ([EvLog "Checking for updates..."; EvNow; EvList q1] ++ []).
    rewrite !list_requests_app, Hls. reflexivity.
  - unfold q2, changesQuery.
    destruct (decide ("" ≠ gdrive.NextPageToken page1)) as [_|Hn];
      [reflexivity|]. exfalso. apply Hn. congruence.
  - destruct (run_refreshTick_first client now (S fuel)
                (mkWorld (w_trace w ++ evs) c1))
      as (res & w2 & rest & Hrun2 & Htrace).
    exists res, w2, rest. split; [exact Hrun2|]. split; [exact Htrace|].
    reflexivity.
Qed.

(** ** The token store *)

Lemma run_getTokens tokenPath w :
  getTokens lib env tokenPath w
  = (Ret (loaded_tokens lib env (w_trace w) tokenPath),
     after w [EvReadFile tokenPath]).
Proof.
  unfold getTokens, loaded_tokens. run.
  by destruct (ioutil_ReadFile env (w_trace w) tokenPath).
Qed.

Lemma run_storeTokens tokenPath tokens w :
  storeTokens lib env tokenPath tokens w
  = match json_Marshal lib tokens with
    | inl err => (Ret (Some ("Could not store tokens, " +:+ err)), w)
    | inr j => (Ret None, after w [EvWriteFile tokenPath j 420])
    end.
Proof.
  unfold storeTokens. destruct (json_Marshal lib tokens); run; reflexivity.
Qed.

(** C3 (the code departs from it): when serialization succeeds and the
    write of the token file fails with an error, [storeTokens] still
    returns a nil error; the error of [ioutil.WriteFile] is dropped. *)
Theorem storeTokens_drops_write_error
        (tokenPath : string) (tokens : list oauth2.Token) (w : World)
        (j : bytes) (err : error) :
  json_Marshal lib tokens = inr j ->
  ioutil_WriteFile env (w_trace w) tokenPath j 420 = Some err ->
  storeTokens lib env tokenPath tokens w
  = (Ret None, after w [EvWriteFile tokenPath j 420]).
Proof. intros Hj _. by rewrite run_storeTokens, Hj. Qed.

(** The half of C3 the code does honour: a serialization error is
    returned. *)
Lemma storeTokens_marshal_error tokenPath tokens w err :
  json_Marshal lib tokens = inl err ->
  storeTokens lib env tokenPath tokens w
  = (Ret (Some ("Could not store tokens, " +:+ err)), w).
Proof. intros Hj. by rewrite run_storeTokens, Hj. Qed.

(** ** Authorization *)

Lemma run_getTokenFromWeb config code tok w :
  fmt_Scan env (w_trace w ++ consent_prompts lib config) = inr code ->
  oauth2_Exchange env (w_trace w ++ consent_prompts lib config ++ [EvScan])
                  config code = inr tok ->
  getTokenFromWeb lib env config w
  = (Ret tok, after w (consent_events lib config code)).
Proof.
  intros Hscan Hex. unfold getTokenFromWeb, fmt_Printf. run.
  cbn [w_trace after]. rewrite <- !app_assoc.
  match goal with
  | |- context [fmt_Scan env ?h] =>
    change h with (w_trace w ++ consent_prompts lib config)
  end.
  rewrite Hscan. run. cbn [w_trace after]. rewrite <- !app_assoc.
  match goal with
  | |- context [oauth2_Exchange env ?h config code] =>
    change h with (w_trace w ++ consent_prompts lib config ++ [EvScan])
  end.
  rewrite Hex. run. reflexivity.
Qed.

Lemma consents_length accts : forall h codes toks,
  consents lib env h accts codes toks ->
  length codes = length accts /\ length toks = length accts.
Proof.
  induction accts as [|a accts IH]; intros h [|c codes] [|t toks] Hc;
    simpl in Hc; try done.
  destruct Hc as (_ & _ & Hrest). destruct (IH _ _ _ Hrest). simpl. lia.
Qed.

Lemma run_forRange_consent accts : forall codes toks d w,
  consents lib env (w_trace w) accts codes toks ->
  forRange
    (fun d account =>
       let config := accountConfig account in
       token ← getTokenFromWeb lib env config;
       let d := set_configs d (configs d ++ [config]) in
       let d := set_tokens d (tokens d ++ [token]) in
       mret d) d accts w
  = (Ret (with_credentials d (configs d ++ map accountConfig accts)
                           (tokens d ++ toks)),
     after w (consents_events lib accts codes)).
Proof.
  induction accts as [|a accts IH]; intros [|c codes] [|t toks] d w Hc;
    cbn [consents] in Hc; try done.
  - simpl. run. rewrite !app_nil_r, after_nil. by destruct d.
  - destruct Hc as (Hscan & Hex & Hrest).
    cbn [forRange]. run.
    rewrite (run_getTokenFromWeb _ c t w Hscan Hex). run.
    rewrite (IH codes toks); [|exact Hrest].
    run. cbn [consents_events]. unfold with_credentials. simpl.
    by rewrite <- !app_assoc.
Qed.

Lemma run_forRange_configs accts : forall d w,
  forRange
    (fun d account =>
       let config := accountConfig account in
       let d := set_configs d (configs d ++ [config]) in
       mret d) d accts w
  = (Ret (with_credentials d (configs d ++ map accountConfig accts)
                           (tokens d)), w).
Proof.
  induction accts as [|a accts IH]; intros d w.
  - simpl. run. rewrite app_nil_r. by destruct d.
  - cbn [forRange]. run. rewrite IH. unfold with_credentials. simpl.
    by rewrite <- !app_assoc.
Qed.

Lemma run_authorize_exchange d tokenPath w codes toks j :
  let loaded := loaded_tokens lib env (w_trace w) tokenPath in
  len loaded < len (accounts d) ->
  consents lib env (w_trace w ++ [EvReadFile tokenPath]) (accounts d)
           codes toks ->
  json_Marshal lib (loaded ++ toks) = inr j ->
  authorize lib env d tokenPath w
  = (Ret (with_credentials d
            (configs d ++ map accountConfig (accounts d))
            (loaded ++ toks), None),
     after w ([EvReadFile tokenPath]
              ++ consents_events lib (accounts d) codes
              ++ [EvWriteFile tokenPath j 420])).
Proof.
  intros loaded Hlt Hcons Hj. unfold authorize.
  rewrite run_bind, run_getTokens. fold loaded. cbv beta iota.
  cbn [set_tokens tokens accounts].
  destruct (decide (len loaded < len (accounts d))) as [_|Hn]; [|done].
  run.
  rewrite (run_forRange_consent (accounts d) codes toks); [|exact Hcons].
  run. rewrite run_storeTokens.
  cbn [with_credentials set_tokens tokens configs accounts
       activeAccountID maxDelay chunkDir].
  rewrite Hj. run. reflexivity.
Qed.

Lemma run_authorize_reuse d tokenPath w :
  let loaded := loaded_tokens lib env (w_trace w) tokenPath in
  ~ len loaded < len (accounts d) ->
  authorize lib env d tokenPath w
  = (Ret (with_credentials d
            (configs d ++ map accountConfig (accounts d)) loaded, None),
     after w [EvReadFile tokenPath]).
Proof.
  intros loaded Hge. unfold authorize.
  rewrite run_bind, run_getTokens. fold loaded. cbv beta iota.
  cbn [set_tokens tokens accounts].
  destruct (decide (len loaded < len (accounts d))) as [Hlt|_]; [done|].
  run. rewrite run_forRange_configs. run.
  cbn [with_credentials set_tokens tokens configs accounts
       activeAccountID maxDelay chunkDir].
  reflexivity.
Qed.

Lemma exchange_requests_app e1 e2 :
  exchange_requests (e1 ++ e2)
  = exchange_requests e1 ++ exchange_requests e2.
Proof. apply omap_app. Qed.

Lemma write_requests_app e1 e2 :
  write_requests (e1 ++ e2) = write_requests e1 ++ write_requests e2.
Proof. apply omap_app. Qed.

Lemma requests_consents_events accts : forall codes,
  length codes = length accts ->
  exchange_requests (consents_events lib accts codes)
  = zip (map accountConfig accts) codes
  /\ write_requests (consents_events lib accts codes) = [].
Proof.
  induction accts as [|a accts IH]; intros [|c codes] Hlen;
    simpl in Hlen; try done.
  destruct (IH codes) as [Hex Hwr]; [lia|].
  cbn [consents_events]. rewrite exchange_requests_app, write_requests_app.
  rewrite Hex, Hwr. split; reflexivity.
Qed.

(** C8: with [N >= 1] accounts.  When the token store loads as the empty
    sequence and the operator and the service complete every consent
    exchange and the new tokens serialize, [authorize] performs [N]
    consent exchanges, one per account in account order, each with that
    account's configuration; it leaves these [N] configurations and the
    [N] exchanged tokens in the pool, in account order, and writes the
    token file once, with exactly these [N] tokens serialized.  When the
    loaded sequence has at least [N] tokens, [authorize] performs no
    consent exchange and no write; it builds the [N] configurations and
    keeps the loaded tokens. *)
Theorem authorize_exchanges_all_or_none
        (d : Drive) (tokenPath : string) (w : World) :
  let N := length (accounts d) in
  let loaded := loaded_tokens lib env (w_trace w) tokenPath in
  (1 <= N)%nat ->
  (forall codes toks j,
      loaded = [] ->
      consents lib env (w_trace w ++ [EvReadFile tokenPath]) (accounts d)
               codes toks ->
      json_Marshal lib toks = inr j ->
      exists evs,
        authorize lib env d tokenPath w
        = (Ret (with_credentials d
                  (configs d ++ map accountConfig (accounts d)) toks,
                None),
           after w evs)
        /\ exchange_requests evs
           = zip (map accountConfig (accounts d)) codes
        /\ length (exchange_requests evs) = N
        /\ length toks = N
        /\ write_requests evs = [(tokenPath, j)])
  /\ ((N <= length loaded)%nat ->
      exists evs,
        authorize lib env d tokenPath w
        = (Ret (with_credentials d
                  (configs d ++ map accountConfig (accounts d)) loaded,
                None),
           after w evs)
        /\ exchange_requests evs = []
        /\ write_requests evs = []).
Proof.
  intros N loaded HN. split.
  - intros codes toks j Hempty Hcons Hj.
    destruct (consents_length _ _ _ _ Hcons) as [Hlc Hlt].
    destruct (requests_consents_events (accounts d) codes Hlc)
      as [Hex Hwr].
    exists ([EvReadFile tokenPath]
            ++ consents_events lib (accounts d) codes
            ++ [EvWriteFile tokenPath j 420]).
    split; [|split; [|split; [|split]]].
    + rewrite (run_authorize_exchange d tokenPath w codes toks j).
      * fold loaded. rewrite Hempty. reflexivity.
      * fold loaded. rewrite Hempty. unfold len. simpl. lia.
      * exact Hcons.
      * fold loaded. rewrite Hempty. exact Hj.
    + rewrite !exchange_requests_app, Hex. simpl. by rewrite app_nil_r.
    + rewrite !exchange_requests_app, Hex. simpl.
      rewrite app_nil_r, length_zip, length_map. lia.
    + exact Hlt.
    + rewrite !write_requests_app, Hwr. reflexivity.
  - intros Hge. exists [EvReadFile tokenPath].
    split; [|split; reflexivity].
    apply run_authorize_reuse. fold loaded. unfold len. lia.
Qed.

(** C10: with [N] accounts and [k] stored tokens, [0 < k < N], when every
    consent exchange completes and the tokens serialize,
    [NewDriveClient] returns a pool whose token sequence is the [k]
    stored tokens followed by the [N] tokens just exchanged; this whole
    sequence, of length [k + N], is what is written to the token file.
    Position 1, paired with account 1 and used by the client of the
    initially active index 1, holds the first stored token; the token
    just exchanged for account 1 sits at position [k + 1]. *)
Theorem authorize_appends_after_stored_tokens
        (accts : list Account) (tokenPath chunkDir : string) (w : World)
        (codes : list string) (toks : list oauth2.Token) (j : bytes) :
  let N := length accts in
  let stored := loaded_tokens lib env (w_trace w) tokenPath in
  let k := length stored in
  (0 < k < N)%nat ->
  consents lib env (w_trace w ++ [EvReadFile tokenPath]) accts codes toks ->
  json_Marshal lib (stored ++ toks) = inr j ->
  exists drive evs,
    NewDriveClient lib env accts tokenPath chunkDir w
    = (Ret (Some drive, None), after w evs)
    /\ tokens drive = stored ++ toks
    /\ length (tokens drive) = (k + N)%nat
    /\ take k (tokens drive) = stored
    /\ configs drive = map accountConfig accts
    /\ write_requests evs = [(tokenPath, j)]
    /\ activeAccountID drive = 1
    /\ exists account1 code1 stale fresh,
         accts !! 0%nat = Some account1
         /\ stored !! 0%nat = Some stale
         /\ oauth2_Exchange env
              (w_trace w ++ [EvReadFile tokenPath]
               ++ consent_prompts lib (accountConfig account1) ++ [EvScan])
              (accountConfig account1) code1 = inr fresh
         /\ tokens drive !! 0%nat = Some stale
         /\ tokens drive !! k = Some fresh
         /\ forall w',
              getClient lib drive w'
              = (Ret (gdrive_New lib
                        (http.mkClient (accountConfig account1) stale)),
                 w').
Proof.
  intros N stored k Hk Hcons Hj.
  destruct (consents_length _ _ _ _ Hcons) as [Hlc Hlt].
  destruct (requests_consents_events accts codes Hlc) as [_ Hwr].
  set (d0 := {| activeAccountID := 1; accounts := accts; tokens := [];
                configs := []; maxDelay := 5000; chunkDir := chunkDir |}).
  assert (Hauth := run_authorize_exchange d0 tokenPath w codes toks j).
  cbn zeta in Hauth. fold stored in Hauth.
  cbn [accounts configs d0] in Hauth.
  specialize (Hauth ltac:(unfold len; fold k N; lia) Hcons Hj).
  eexists _, _. split; [|split; [|split; [|split; [|split; [|split]]]]].
  - unfold NewDriveClient. fold d0. rewrite run_bind, Hauth. run.
    reflexivity.
  - reflexivity.
  - cbn [tokens with_credentials]. rewrite length_app. fold k. lia.
  - cbn [tokens with_credentials]. subst k. apply take_app_length.
  - reflexivity.
  - rewrite !write_requests_app, Hwr. reflexivity.
  - split; [reflexivity|].
    destruct accts as [|account1 accts']; [simpl in N; lia|].
    destruct codes as [|code1 codes']; [done|].
    destruct toks as [|fresh toks']; [done|].
    destruct stored as [|stale stored'] eqn:Hstored; [simpl in k; lia|].
    cbn [consents] in Hcons. destruct Hcons as (_ & Hex & _).
    exists account1, code1, stale, fresh.
    split; [reflexivity|]. split; [reflexivity|].
    split; [by rewrite <- !app_assoc in Hex|].
    split; [reflexivity|]. split.
    + cbn [tokens with_credentials]. subst k.
      rewrite lookup_app_r by lia.
      by replace (length (stale :: stored') - length (stale :: stored'))%nat
        with 0%nat by lia.
    + intros w'. unfold getClient. run. rewrite !run_index.
      reflexivity.
Qed.

End Properties.

(** * The properties on the sample world *)

Section SampleRuns.
Local Existing Instance Sample.cache.

Lemma rotateAccounts_cycles_witness :
  1 <= activeAccountID (Sample.drive 3) <= len (configs (Sample.drive 3))
  /\ len (configs (Sample.drive 3)) < int_max
  /\ (exists w',
        rotateAccounts (Sample.drive 3) Sample.world
        = (Ret (Sample.drive 1), w'))
  /\ (exists w',
        rotateTimes 4 (Sample.drive 3) Sample.world
        = (Ret (Sample.drive 1), w')).
Proof.
  assert (Hi : 1 <= activeAccountID (Sample.drive 3)
               <= len (configs (Sample.drive 3)))
    by (unfold len; simpl; lia).
  assert (HN : len (configs (Sample.drive 3)) < int_max) by reflexivity.
  destruct (rotateAccounts_cycles (Sample.drive 3) Sample.world Hi HN)
    as (Hone & _ & Hmany).
  split; [exact Hi|]. split; [exact HN|]. split.
  - exact Hone.
  - destruct (Hmany 4%nat) as (w' & Hrun & _). exists w'. exact Hrun.
Defined.

Lemma mapDriveToAPIObject_unparsable_mtime_witness :
  time_Parse_RFC3339 Sample.lib (gdrive.ModifiedDate Sample.fileB)
  = inl "parsing time yesterday"
  /\ exists object,
       mapDriveToAPIObject Sample.lib Sample.envNames Sample.fileB
                           Sample.world
       = (Ret object, after Sample.world [EvNow])
       /\ MTime object = 1500000000
       /\ ID object = "b" /\ Name object = "docs" /\ IsDir object = true
       /\ Size object = 0 /\ Parents object = ["root"].
Proof.
  assert (Hparse :
    time_Parse_RFC3339 Sample.lib (gdrive.ModifiedDate Sample.fileB)
    = inl "parsing time yesterday") by reflexivity.
  split; [exact Hparse|].
  destruct (mapDriveToAPIObject_unparsable_mtime
              Sample.lib Sample.envNames Sample.fileB Sample.world _ Hparse)
    as (object & Hrun & Hmtime & Hid & Hname & _ & Hsize & Hparents
        & Hdir & _).
  exists object. split; [exact Hrun|]. split; [exact Hmtime|].
  split; [exact Hid|]. split; [exact Hname|].
  split; [apply Hdir; reflexivity|]. split; [exact Hsize|exact Hparents].
Defined.

Lemma FileSize_status_code_witness :
  getClient Sample.lib (Sample.drive 1) Sample.world
  = (Ret (inr Sample.clientA), Sample.world)
  /\ Files_Get_Download Sample.envNames (w_trace Sample.world)
                        Sample.clientA "a" = inr Sample.notFound
  /\ FileSize Sample.lib Sample.envNames (Sample.drive 1) "a" Sample.world
     = (Ret (0, Some "Invalid status code 404"),
        after Sample.world [EvDownload Sample.clientA "a"]).
Proof.
  assert (Hc : getClient Sample.lib (Sample.drive 1) Sample.world
               = (Ret (inr Sample.clientA), Sample.world)) by reflexivity.
  assert (Hd : Files_Get_Download Sample.envNames (w_trace Sample.world)
                                  Sample.clientA "a" = inr Sample.notFound)
    by reflexivity.
  split; [exact Hc|]. split; [exact Hd|].
  destruct (FileSize_status_code Sample.lib Sample.envNames (Sample.drive 1)
              "a" Sample.world Sample.clientA Sample.notFound Hc Hd)
    as (r & Hrun & _ & Herr).
  rewrite Hrun. rewrite Herr; [reflexivity|]. cbn. lia.
Defined.

Lemma GetFileByNameAndParent_first_exact_title_witness :
  getClient Sample.lib (Sample.drive 1) Sample.world
  = (Ret (inr Sample.clientA), Sample.world)
  /\ Files_List_Do Sample.envNames (w_trace Sample.world)
                   (nameQuery Sample.clientA "a.txt" "root")
     = inr (gdrive.mkFileList [Sample.fileC; Sample.fileA; Sample.fileD] "")
  /\ GetFileByNameAndParent Sample.lib Sample.envNames (Sample.drive 1)
                            "a.txt" "root" Sample.world
     = (Ret (Some Sample.fileA, None),
        after Sample.world [EvList (nameQuery Sample.clientA "a.txt" "root")]).
Proof.
  assert (Hc : getClient Sample.lib (Sample.drive 1) Sample.world
               = (Ret (inr Sample.clientA), Sample.world)) by reflexivity.
  assert (Hl : Files_List_Do Sample.envNames (w_trace Sample.world)
                 (nameQuery Sample.clientA "a.txt" "root")
               = inr (gdrive.mkFileList
                        [Sample.fileC; Sample.fileA; Sample.fileD] ""))
    by reflexivity.
  split; [exact Hc|]. split; [exact Hl|].
  destruct (GetFileByNameAndParent_first_exact_title
              Sample.lib Sample.envNames (Sample.drive 1) "a.txt" "root"
              Sample.world Sample.clientA _ Hc Hl)
    as (res & Hrun & Hfirst & _).
  rewrite Hrun.
  rewrite (Hfirst [Sample.fileC] Sample.fileA [Sample.fileD]);
    [reflexivity|reflexivity|reflexivity|].
  repeat constructor. cbn. discriminate.
Defined.

Lemma storeTokens_drops_write_error_witness :
  json_Marshal Sample.lib [Sample.tokenOf "A"] = inr (list_byte_of_string "A")
  /\ ioutil_WriteFile Sample.envReadOnly (w_trace Sample.world)
                      "/nonexistent/token.json" (list_byte_of_string "A") 420
     = Some "permission denied"
  /\ storeTokens Sample.lib Sample.envReadOnly "/nonexistent/token.json"
                 [Sample.tokenOf "A"] Sample.world
     = (Ret None,
        after Sample.world
              [EvWriteFile "/nonexistent/token.json"
                           (list_byte_of_string "A") 420]).
Proof.
  assert (Hj : json_Marshal Sample.lib [Sample.tokenOf "A"]
               = inr (list_byte_of_string "A")) by reflexivity.
  assert (Hw : ioutil_WriteFile Sample.envReadOnly (w_trace Sample.world)
                 "/nonexistent/token.json" (list_byte_of_string "A") 420
               = Some "permission denied") by reflexivity.
  split; [exact Hj|]. split; [exact Hw|].
  exact (storeTokens_drops_write_error Sample.lib Sample.envReadOnly
           "/nonexistent/token.json" [Sample.tokenOf "A"] Sample.world
           _ _ Hj Hw).
Defined.

Lemma GetObject_size_followup_witness :
  getClient Sample.lib (Sample.drive 1) Sample.world
  = (Ret (inr Sample.clientA), Sample.world)
  /\ Files_Get_Do Sample.envNames (w_trace Sample.world) Sample.clientA "b"
     = inr Sample.fileB
  /\ Files_Get_Do Sample.envNames (w_trace Sample.world) Sample.clientA "a"
     = inr Sample.fileA
  /\ (exists object,
        GetObject Sample.lib Sample.envNames (Sample.drive 1) "b" Sample.world
        = (Ret (Some object, None),
           after Sample.world
                 [EvGet Sample.clientA "b"; EvDownload Sample.clientA "b";
                  EvNow])
        /\ Size object = 0)
  /\ (exists object,
        GetObject Sample.lib Sample.envNames (Sample.drive 1) "a" Sample.world
        = (Ret (Some object, None),
           after Sample.world [EvGet Sample.clientA "a"])
        /\ Size object = 10).
Proof.
  assert (Hc : getClient Sample.lib (Sample.drive 1) Sample.world
               = (Ret (inr Sample.clientA), Sample.world)) by reflexivity.
  assert (Hb : Files_Get_Do Sample.envNames (w_trace Sample.world)
                 Sample.clientA "b" = inr Sample.fileB) by reflexivity.
  assert (Ha : Files_Get_Do Sample.envNames (w_trace Sample.world)
                 Sample.clientA "a" = inr Sample.fileA) by reflexivity.
  split; [exact Hc|]. split; [exact Hb|]. split; [exact Ha|]. split.
  - destruct (GetObject_size_followup Sample.lib Sample.envNames
                (Sample.drive 1) "b" Sample.world Sample.clientA
                Sample.fileB Hc Hb) as [Hzero _].
    destruct (Hzero eq_refl)
      as (fileSize & err & object & Hfs & Hrun & Hfail & _).
    exists object. split; [exact Hrun|].
    apply Hfail. intros ->. discriminate Hfs.
  - destruct (GetObject_size_followup Sample.lib Sample.envNames
                (Sample.drive 1) "a" Sample.world Sample.clientA
                Sample.fileA Hc Ha) as [_ Hnonzero].
    destruct Hnonzero as (object & Hrun & _ & _ & _ & Hsize);
      [discriminate|].
    exists object. split; [exact Hrun|].
    apply Hsize. cbn. lia.
Defined.

Lemma GetObjectsByParent_page_error_swallowed_witness :
  getClient Sample.lib (Sample.drive 1) Sample.world
  = (Ret (inr Sample.clientA), Sample.world)
  /\ pages_then_error Sample.lib Sample.envListing Sample.clientA "root"
       (w_trace Sample.world) ""
       [gdrive.mkFileList [Sample.fileA; Sample.fileB] "t1";
        gdrive.mkFileList [Sample.fileC] "t2"]
       "googleapi: Error 500: backendError"
  /\ exists files evs,
       GetObjectsByParent Sample.lib Sample.envListing 3 (Sample.drive 1)
                          "root" Sample.world
       = (Ret (files, None), after Sample.world evs)
       /\ map ID files = ["a"; "b"; "c"]
       /\ map gdrive.pageToken (list_requests evs)
          = [None; Some "t1"; Some "t2"].
Proof.
  assert (Hc : getClient Sample.lib (Sample.drive 1) Sample.world
               = (Ret (inr Sample.clientA), Sample.world)) by reflexivity.
  assert (Hp : pages_then_error Sample.lib Sample.envListing Sample.clientA
                 "root" (w_trace Sample.world) ""
                 [gdrive.mkFileList [Sample.fileA; Sample.fileB] "t1";
                  gdrive.mkFileList [Sample.fileC] "t2"]
                 "googleapi: Error 500: backendError").
  { cbn [pages_then_error].
    split; [reflexivity|]. split; [discriminate|].
    split; [reflexivity|]. split; [discriminate|]. reflexivity. }
  split; [exact Hc|]. split; [exact Hp|].
  destruct (GetObjectsByParent_page_error_swallowed
              Sample.lib Sample.envListing (Sample.drive 1) "root"
              Sample.world Sample.clientA _ _ 3 Hc Hp)
    as (files & evs & Hrun & Hfiles & _ & _ & Hreq); [simpl; lia|].
  exists files, evs. split; [exact Hrun|]. split.
  - rewrite Hfiles. reflexivity.
  - rewrite Hreq. reflexivity.
Defined.

Lemma refreshTick_page_failure_ends_tick_witness :
  Files_List_Do Sample.envChanges [EvLog "Checking for updates..."; EvNow]
                (changesQuery Sample.clientA Sample.stamp "")
  = inr (gdrive.mkFileList [Sample.fileA; Sample.fileB] "t1")
  /\ exists w',
       refreshTick Sample.lib Sample.envChanges 2 Sample.clientA 1488369600
                   Sample.world
       = (Ret 1500000001, w')
       /\ map ID (store_requests (w_trace w')) = ["a"; "b"]
       /\ map gdrive.pageToken (list_requests (w_trace w'))
          = [None; Some "t1"]
       /\ ID <$> (w_cache w' : gmap string APIObject) !! "a" = Some "a"
       /\ ID <$> (w_cache w' : gmap string APIObject) !! "b" = Some "b"
       /\ (w_cache w' : gmap string APIObject) !! "c" = None.
Proof.
  assert (Hp1 :
    Files_List_Do Sample.envChanges [EvLog "Checking for updates..."; EvNow]
                  (changesQuery Sample.clientA Sample.stamp "")
    = inr (gdrive.mkFileList [Sample.fileA; Sample.fileB] "t1"))
    by reflexivity.
  split; [exact Hp1|].
  pose proof (refreshTick_page_failure_ends_tick
                Sample.lib Sample.envChanges Sample.clientA 1488369600
                Sample.world
                (gdrive.mkFileList [Sample.fileA; Sample.fileB] "t1")
                "googleapi: Error 500: backendError" 2) as Htick.
  cbv zeta in Htick.
  destruct Htick as (Hrun & _ & _ & _ & _ & _ & _ & _);
    [exact Hp1|discriminate|reflexivity|lia|].
  eexists. split; [exact Hrun|].
  repeat split; reflexivity.
Defined.

Lemma authorize_exchanges_all_or_none_witness :
  (1 <= length (accounts Sample.drive0))%nat
  /\ loaded_tokens Sample.lib Sample.envNames (w_trace Sample.world)
                   "token.json" = []
  /\ (exists evs,
        authorize Sample.lib Sample.envNames Sample.drive0 "token.json"
                  Sample.world
        = (Ret (Sample.drive 1, None), after Sample.world evs)
        /\ map fst (exchange_requests evs)
           = map accountConfig Sample.accountsABC
        /\ write_requests evs
           = [("token.json", list_byte_of_string "ABC")])
  /\ (exists d evs,
        authorize Sample.lib Sample.envThreeTokens Sample.drive0 "token.json"
                  Sample.world
        = (Ret (d, None), after Sample.world evs)
        /\ exchange_requests evs = [] /\ write_requests evs = []
        /\ map oauth2.AccessToken (tokens d) = ["X"; "Y"; "Z"]
        /\ configs d = map accountConfig Sample.accountsABC).
Proof.
  assert (HN : (1 <= length (accounts Sample.drive0))%nat) by (simpl; lia).
  assert (Hempty : loaded_tokens Sample.lib Sample.envNames
                     (w_trace Sample.world) "token.json" = [])
    by reflexivity.
  split; [exact HN|]. split; [exact Hempty|]. split.
  - destruct (authorize_exchanges_all_or_none
                Sample.lib Sample.envNames Sample.drive0 "token.json"
                Sample.world HN) as [Hfresh _].
    destruct (Hfresh ["4/AAA"; "4/AAA"; "4/AAA"]
                     (map (fun a => Sample.tokenOf (ClientID a))
                          Sample.accountsABC)
                     (list_byte_of_string "ABC") Hempty)
      as (evs & Hrun & Hex & _ & _ & Hwr).
    + cbn [consents Sample.accountsABC map].
      repeat split; reflexivity.
    + reflexivity.
    + exists evs. split; [exact Hrun|]. split; [|exact Hwr].
      rewrite Hex. reflexivity.
  - destruct (authorize_exchanges_all_or_none
                Sample.lib Sample.envThreeTokens Sample.drive0 "token.json"
                Sample.world HN) as [_ Hreuse].
    destruct Hreuse as (evs & Hrun & Hex & Hwr); [simpl; lia|].
    eexists _, evs. split; [exact Hrun|]. split; [exact Hex|].
    split; [exact Hwr|]. split; reflexivity.
Defined.

Lemma authorize_appends_after_stored_tokens_witness :
  loaded_tokens Sample.lib Sample.envOneToken (w_trace Sample.world)
                "token.json"
  = [oauth2.mkToken "X" "Bearer" "" 0]
  /\ exists drive evs,
       NewDriveClient Sample.lib Sample.envOneToken Sample.accountsABC
                      "token.json" "/tmp/chunks" Sample.world
       = (Ret (Some drive, None), after Sample.world evs)
       /\ map oauth2.AccessToken (tokens drive) = ["X"; "A"; "B"; "C"]
       /\ write_requests evs = [("token.json", list_byte_of_string "XABC")]
       /\ getClient Sample.lib drive Sample.world
          = (Ret (inr (Sample.clientOf "A" "sa"
                         (oauth2.mkToken "X" "Bearer" "" 0))),
             Sample.world).
Proof.
  split; [reflexivity|].
  destruct (authorize_appends_after_stored_tokens
              Sample.lib Sample.envOneToken Sample.accountsABC
              "token.json" "/tmp/chunks" Sample.world
              ["4/AAA"; "4/AAA"; "4/AAA"]
              (map (fun a => Sample.tokenOf (ClientID a)) Sample.accountsABC)
              (list_byte_of_string "XABC"))
    as (drive & evs & Hrun & Htok & _ & _ & _ & Hwr & _ & Hfirst).
  - simpl. lia.
  - cbn [consents Sample.accountsABC map]. repeat split; reflexivity.
  - reflexivity.
  - exists drive, evs. split; [exact Hrun|]. split; [|split; [exact Hwr|]].
    + rewrite Htok. reflexivity.
    + destruct Hfirst
        as (account1 & code1 & stale & fresh & Ha & Hs & _ & _ & _ & Hcl).
      rewrite Hcl. injection Ha as <-. injection Hs as <-. reflexivity.
Defined.

End SampleRuns.

(** * Further properties of drive.go *)

Section MoreProperties.
Context `{CacheIface} (lib : GoLib) (env : Env).

(** ** arrayIndex *)

Lemma arrayIndex_from_spec values value : forall p,
  ((value ∉ values) /\ arrayIndex_from p values value = -1)
  \/ exists n : nat,
       arrayIndex_from p values value = p + Z.of_nat n
       /\ values !! n = Some value
       /\ forall j : nat, (j < n)%nat -> values !! j <> Some value.
Proof.
  induction values as [|v values IH]; intros p.
  - left. split; [apply not_elem_of_nil|reflexivity].
  - simpl. destruct (decide (v = value)) as [->|Hne].
    + right. exists 0%nat. split; [lia|]. split; [reflexivity|].
      intros j Hj. lia.
    + destruct (IH (p + 1)) as [[Hnot Hres]|(n & Hres & Hn & Hbefore)].
      * left. split; [|exact Hres].
        intros Hin. apply elem_of_cons in Hin as [->|Hin]; [done|].
        exact (Hnot Hin).
      * right. exists (S n). split; [rewrite Hres; lia|].
        split; [exact Hn|].
        intros [|j] Hj; simpl; [congruence|]. apply Hbefore. lia.
Qed.

(** X1: [arrayIndex] returns the position of the first occurrence of [value]
    in [values], counted from 0, and [-1] exactly when [value] does not
    occur. *)
Theorem arrayIndex_first_occurrence (values : list string) (value : string) :
  ((value ∉ values) /\ arrayIndex values value = -1)
  \/ exists n : nat,
       arrayIndex values value = Z.of_nat n
       /\ values !! n = Some value
       /\ forall j : nat, (j < n)%nat -> values !! j <> Some value.
Proof.
  unfold arrayIndex.
  destruct (arrayIndex_from_spec values value 0)
    as [Habsent|(n & Hres & Hn & Hbefore)]; [by left|].
  right. exists n. split; [rewrite Hres; lia|]. by split.
Qed.

(** ** The object mapper, whatever the timestamp *)

(** X2: For every raw file the mapper returns an object: it is a directory
    exactly when the MIME type is the folder type, its parents are the
    identifiers of the parent references in their order, its size is the
    reported size as an unsigned 64-bit number, and the wall clock is read
    exactly when the timestamp does not parse. *)
Theorem mapDriveToAPIObject_total (file : gdrive.File) (w : World) :
  exists object evs,
    mapDriveToAPIObject lib env file w = (Ret object, after w evs)
    /\ (IsDir object = true <->
        gdrive.MimeType file = "application/vnd.google-apps.folder")
    /\ Parents object = map gdrive.ParentId (gdrive.Parents file)
    /\ 0 <= Size object < 2 ^ 64
    /\ Size object = gdrive.FileSize file mod 2 ^ 64
    /\ match time_Parse_RFC3339 lib (gdrive.ModifiedDate file) with
       | inr mtime => evs = [] /\ MTime object = mtime
       | inl _ => evs = [EvNow] /\ MTime object = time_Now env (w_trace w)
       end.
Proof.
  eexists _, _. split; [apply run_mapDriveToAPIObject|].
  split; [|split; [reflexivity|split; [|split; [reflexivity|]]]].
  - simpl. split; intros Hd.
    + by apply bool_decide_eq_true in Hd.
    + by apply bool_decide_eq_true.
  - simpl. unfold to_uint64. apply Z.mod_pos_bound. lia.
  - unfold mapper_events, mapper_mtime. simpl.
    destruct (time_Parse_RFC3339 lib (gdrive.ModifiedDate file)); by split.
Qed.

(** ** Errors that are returned *)

(** X3: When no client can be built, each operation returns that error at once,
    before any request: the world is left as it was; the poller logs one
    line and returns without waiting for a tick. *)
Theorem client_error_returned_before_any_request
        (d : Drive) (w : World) (err : error) :
  getClient lib d w = (Ret (inl err), w) ->
  (forall id, FileSize lib env d id w = (Ret (0, Some err), w))
  /\ (forall id, GetObject lib env d id w = (Ret (None, Some err), w))
  /\ (forall fuel parentID,
        GetObjectsByParent lib env fuel d parentID w
        = (Ret ([], Some err), w))
  /\ (forall name parent,
        GetFileByNameAndParent lib env d name parent w
        = (Ret (None, Some err), w))
  /\ (forall ticks fuel,
        startAutoRefresh lib env ticks fuel d w
        = (Ret tt,
           after w [EvLog "Could not get client for auto refreshing"])).
Proof.
  intros Hc. repeat split; intros.
  - unfold FileSize. rewrite run_bind, Hc. reflexivity.
  - unfold GetObject. rewrite run_bind, Hc. reflexivity.
  - unfold GetObjectsByParent. rewrite run_bind, Hc. reflexivity.
  - unfold GetFileByNameAndParent. rewrite run_bind, Hc. reflexivity.
  - unfold startAutoRefresh. rewrite run_bind, Hc. reflexivity.
Qed.

(** X4: With a client in hand, a failed metadata fetch, a failed download
    request and a failed name query are each returned to the caller as they
    are, after that single request; nothing is mapped and nothing else is
    requested. *)
Theorem request_error_returned
        (d : Drive) (w : World) (client : gdrive.Service) :
  getClient lib d w = (Ret (inr client), w) ->
  (forall id err,
      Files_Get_Do env (w_trace w) client id = inl err ->
      GetObject lib env d id w
      = (Ret (None, Some err), after w [EvGet client id]))
  /\ (forall id err,
        Files_Get_Download env (w_trace w) client id = inl err ->
        FileSize lib env d id w
        = (Ret (0, Some err), after w [EvDownload client id]))
  /\ (forall name parent err,
        Files_List_Do env (w_trace w) (nameQuery client name parent)
        = inl err ->
        GetFileByNameAndParent lib env d name parent w
        = (Ret (None, Some err),
           after w [EvList (nameQuery client name parent)])).
Proof.
  intros Hc. repeat split.
  - intros id err Hget. unfold GetObject. rewrite run_bind, Hc. run.
    by rewrite Hget.
  - intros id err Hdl. rewrite (run_FileSize lib env d id w client Hc).
    by rewrite Hdl.
  - intros name parent err Hls. unfold GetFileByNameAndParent.
    rewrite run_bind, Hc. run. fold (nameQuery client name parent).
    by rewrite Hls.
Qed.

(** ** GetObject, when the size is resolved *)

(** X5: When the metadata reports size 0 and the follow-up download request is
    answered with status 200, the object carries the response's content
    length as its size, converted to an unsigned 64-bit number: a response
    of unknown length ([-1]) gives the size [2^64 - 1]. *)
Theorem GetObject_resolves_zero_size
        (d : Drive) (id : string) (w : World) (client : gdrive.Service)
        (o : gdrive.File) (httpResponse : http.Response) :
  getClient lib d w = (Ret (inr client), w) ->
  Files_Get_Do env (w_trace w) client id = inr o ->
  gdrive.FileSize o = 0 ->
  Files_Get_Download env (w_trace w ++ [EvGet client id]) client id
  = inr httpResponse ->
  http.StatusCode httpResponse = 200 ->
  exists object,
    GetObject lib env d id w
    = (Ret (Some object, None),
       after w ([EvGet client id; EvDownload client id]
                ++ mapper_events lib o))
    /\ Size object = to_uint64 (http.ContentLength httpResponse)
    /\ (0 <= http.ContentLength httpResponse < 2 ^ 64 ->
        Size object = http.ContentLength httpResponse)
    /\ (http.ContentLength httpResponse = -1 -> Size object = 2 ^ 64 - 1)
    /\ ID object = gdrive.Id o /\ Name object = gdrive.Title o.
Proof.
  intros Hc Hget Hzero Hdl H200.
  pose proof (run_FileSize lib env d id (after w [EvGet client id]) client
                (getClient_again lib d w _ _ Hc)) as Hfs.
  cbn [w_trace after] in Hfs. rewrite Hdl in Hfs.
  destruct (decide (200 = http.StatusCode httpResponse)) as [_|Hn];
    [|congruence].
  eexists. split.
  - unfold GetObject. rewrite run_bind, Hc. run. rewrite Hget.
    destruct (decide (gdrive.FileSize o = 0)) as [_|Hne]; [|done].
    run. rewrite Hfs. run. rewrite run_mapDriveToAPIObject. run.
    rewrite mapper_events_set_FileSize. reflexivity.
  - split; [reflexivity|]. split; [|split; [|split; reflexivity]].
    + intros Hrange. simpl. unfold to_uint64. apply Z.mod_small. lia.
    + intros Hminus. simpl. rewrite Hminus. reflexivity.
Qed.

(** ** GetObjectsByParent, when every page can be fetched *)

Lemma run_listPages_to_end client parentID pages :
  forall fuel files tok w,
    pages_to_end lib env client parentID (w_trace w) tok pages ->
    (length pages <= fuel)%nat ->
    listPages lib env fuel client parentID files tok w
    = (Ret (files ++ listing_objects lib env client parentID
                       (w_trace w) tok pages),
       after w (paging_events lib client parentID tok pages)).
Proof.
  induction pages as [|r pages IH]; intros fuel files tok w Hans Hfuel;
    [done|].
  destruct fuel as [|fuel]; [simpl in Hfuel; lia|].
  cbn [pages_to_end] in Hans. destruct Hans as [Hr Hrest].
  simpl listPages. fold (listQuery client parentID tok). run.
  rewrite Hr. run. rewrite run_forRange_map. run.
  destruct pages as [|r' pages].
  - destruct (decide ("" = gdrive.NextPageToken r)) as [_|Hne];
      [|congruence].
    run. cbn [listing_objects paging_events]. rewrite trace_after.
    by rewrite !app_nil_r.
  - destruct Hrest as [Htok Hrest].
    destruct (decide ("" = gdrive.NextPageToken r)) as [Heq|_];
      [congruence|].
    rewrite (IH fuel); [| |simpl in *; lia].
    + rewrite !trace_after, after_after.
      cbn [listing_objects paging_events]. by rewrite <- !app_assoc.
    + by rewrite trace_after.
Qed.

Lemma list_requests_paging client parentID pages : forall tok,
  list_requests (paging_events lib client parentID tok pages)
  = map (listQuery client parentID)
        (take (length pages) (tok :: map gdrive.NextPageToken pages)).
Proof.
  induction pages as [|r pages IH]; intros tok; [reflexivity|].
  cbn [paging_events].
  rewrite !list_requests_app, list_requests_mapping, IH. reflexivity.
Qed.

(** X6: When the requests of a listing are answered with [n >= 1] pages of
    which only the last carries no further page token,
    [GetObjectsByParent] returns (whenever [n] pages are allowed) the
    objects mapped from the items of all [n] pages, in page order and in
    each page's order, with a nil error, after exactly [n] requests: the
    first without a page token, each further one with the token of the
    page before. *)
Theorem GetObjectsByParent_lists_every_page
        (d : Drive) (parentID : string) (w : World)
        (client : gdrive.Service) (pages : list gdrive.FileList)
        (fuel : nat) :
  getClient lib d w = (Ret (inr client), w) ->
  pages_to_end lib env client parentID (w_trace w) "" pages ->
  (length pages <= fuel)%nat ->
  exists files evs,
    GetObjectsByParent lib env fuel d parentID w
    = (Ret (files, None), after w evs)
    /\ Forall2 (fun object file =>
                  exists mtime, object = mapped_object file mtime)
               files (concat (map gdrive.Items pages))
    /\ length (list_requests evs) = length pages
    /\ list_requests evs
       = map (listQuery client parentID)
             (take (length pages) ("" :: map gdrive.NextPageToken pages)).
Proof.
  intros Hc Hans Hfuel.
  exists (listing_objects lib env client parentID (w_trace w) "" pages),
         (paging_events lib client parentID "" pages).
  split; [|split; [|split]].
  - unfold GetObjectsByParent. rewrite run_bind, Hc. run.
    rewrite (run_listPages_to_end client parentID pages) by assumption.
    run. reflexivity.
  - apply listing_objects_shape.
  - rewrite list_requests_paging, length_map, length_take. simpl.
    rewrite length_map. lia.
  - apply list_requests_paging.
Qed.

(** ** GetObjectsByParent, when the pages never end *)

Lemma run_listPages_endless client parentID :
  (forall h call, exists r,
      Files_List_Do env h call = inr r /\ gdrive.NextPageToken r <> "") ->
  forall fuel files tok w,
    exists evs,
      listPages lib env fuel client parentID files tok w
      = (Timeout, after w evs)
      /\ length (list_requests evs) = fuel.
Proof.
  intros Hmore. induction fuel as [|fuel IH]; intros files tok w.
  - exists []. rewrite after_nil. by split.
  - simpl listPages. fold (listQuery client parentID tok). run.
    destruct (Hmore (w_trace w) (listQuery client parentID tok))
      as (r & Hr & Htok).
    rewrite Hr. run. rewrite run_forRange_map. run.
    destruct (decide ("" = gdrive.NextPageToken r)) as [Heq|_];
      [congruence|].
    edestruct IH as (evs & Hrun & Hlen). rewrite Hrun.
    rewrite after_after. eexists. split; [reflexivity|].
    rewrite !list_requests_app, list_requests_mapping, !length_app, Hlen.
    reflexivity.
Qed.

(** X7: The listing has no bound on the number of pages: against a service
    that hands out a further page token with every page,
    [GetObjectsByParent] has not returned after any number of requests. *)
Theorem GetObjectsByParent_unbounded_paging
        (d : Drive) (parentID : string) (w : World)
        (client : gdrive.Service) :
  getClient lib d w = (Ret (inr client), w) ->
  (forall h call, exists r,
      Files_List_Do env h call = inr r /\ gdrive.NextPageToken r <> "") ->
  forall fuel : nat,
    exists evs,
      GetObjectsByParent lib env fuel d parentID w = (Timeout, after w evs)
      /\ length (list_requests evs) = fuel.
Proof.
  intros Hc Hmore fuel.
  destruct (run_listPages_endless client parentID Hmore fuel [] "" w)
    as (evs & Hrun & Hlen).
  exists evs. split; [|exact Hlen].
  unfold GetObjectsByParent. rewrite run_bind, Hc. run. by rewrite Hrun.
Qed.

(** ** Rotation, once around *)

Lemma rotation_moves (a k N : Z) :
  0 <= a < N -> 0 < k < N -> (a + k) mod N <> a.
Proof.
  intros Ha Hk. destruct (Z_lt_dec (a + k) N) as [Hlt|Hge].
  - rewrite Z.mod_small by lia. lia.
  - replace (a + k) with ((a + k - N) + 1 * N) by lia.
    rewrite Z_mod_plus_full, Z.mod_small by lia. lia.
Qed.

(** X8: In a pool of [N] configurations with the active index in [1..N], [N]
    rotations in a row bring the pool back to where it started, and fewer
    rotations (at least one) leave it on another account: a full round
    visits every account once. *)
Theorem rotateAccounts_full_round (d : Drive) (w : World) :
  let N := len (configs d) in
  1 <= activeAccountID d <= N -> N < int_max ->
  (exists w', rotateTimes (length (configs d)) d w = (Ret d, w'))
  /\ forall k : nat,
       (0 < k < length (configs d))%nat ->
       exists d' w',
         rotateTimes k d w = (Ret d', w')
         /\ activeAccountID d' <> activeAccountID d
         /\ 1 <= activeAccountID d' <= N
         /\ configs d' = configs d /\ tokens d' = tokens d.
Proof.
  intros N Hi HN. subst N. split.
  - destruct (run_rotateTimes (length (configs d)) d w Hi HN) as [w' Hw'].
    exists w'. rewrite Hw'. do 2 f_equal. fold (len (configs d)).
    replace (activeAccountID d - 1 + len (configs d))
      with ((activeAccountID d - 1) + 1 * len (configs d)) by lia.
    rewrite Z_mod_plus_full, Z.mod_small by lia.
    replace (activeAccountID d - 1 + 1) with (activeAccountID d) by lia.
    apply set_activeAccountID_same.
  - intros k Hk. destruct (run_rotateTimes k d w Hi HN) as [w' Hw'].
    eexists _, w'. split; [exact Hw'|].
    cbn [activeAccountID set_activeAccountID configs tokens].
    assert (Hk' : 0 < Z.of_nat k < len (configs d)) by (unfold len; lia).
    pose proof (rotation_moves (activeAccountID d - 1) (Z.of_nat k)
                  (len (configs d)) ltac:(lia) Hk') as Hmove.
    pose proof (Z.mod_pos_bound (activeAccountID d - 1 + Z.of_nat k)
                  (len (configs d)) ltac:(lia)) as Hbound.
    repeat split; try reflexivity; lia.
Qed.

(** ** The pool after construction *)

Lemma getTokenFromWeb_forRange_ret accts : forall d w d' w',
  forRange
    (fun d account =>
       let config := accountConfig account in
       token ← getTokenFromWeb lib env config;
       let d := set_configs d (configs d ++ [config]) in
       let d := set_tokens d (tokens d ++ [token]) in
       mret d) d accts w
  = (Ret d', w') ->
  configs d' = configs d ++ map accountConfig accts
  /\ length (tokens d') = (length (tokens d) + length accts)%nat
  /\ activeAccountID d' = activeAccountID d.
Proof.
  induction accts as [|a accts IH]; intros d w d' w' Hrun.
  - simpl in Hrun. rewrite run_ret in Hrun. injection Hrun as <- _.
    rewrite app_nil_r. simpl. by rewrite Nat.add_0_r.
  - cbn [forRange] in Hrun. rewrite !run_bind in Hrun.
    destruct (getTokenFromWeb lib env (accountConfig a) w)
      as [[tok|msg|msg|] w1]; try discriminate Hrun.
    cbv beta iota zeta in Hrun. rewrite run_ret in Hrun.
    apply IH in Hrun as (Hcfg & Hlen & Hidx).
    cbn [set_configs set_tokens configs tokens activeAccountID] in *.
    rewrite Hcfg, Hlen, <- app_assoc, length_app. simpl.
    split; [reflexivity|]. split; [lia|exact Hidx].
Qed.

Lemma authorize_ret d tokenPath w d' err w' :
  authorize lib env d tokenPath w = (Ret (d', err), w') ->
  configs d' = configs d ++ map accountConfig (accounts d)
  /\ (length (accounts d) <= length (tokens d'))%nat
  /\ activeAccountID d' = activeAccountID d.
Proof.
  unfold authorize. rewrite run_bind, run_getTokens. cbv beta iota zeta.
  cbn [set_tokens tokens accounts].
  set (loaded := loaded_tokens lib env (w_trace w) tokenPath).
  destruct (decide (len loaded < len (accounts d))) as [Hlt|Hge];
    rewrite run_bind.
  - match goal with
    | |- context [forRange ?b ?d0 ?l ?w0] =>
      destruct (forRange b d0 l w0) as [[d1|msg|msg|] w1] eqn:Hloop
    end; try discriminate.
    apply getTokenFromWeb_forRange_ret in Hloop as (Hcfg & Hlen & Hidx).
    rewrite run_bind, run_storeTokens.
    intros Hrun.
    assert (Hd : d' = d1).
    { destruct (json_Marshal lib (tokens d1)); rewrite ?run_bind in Hrun;
        cbv beta iota in Hrun; rewrite ?run_ret in Hrun; congruence. }
    subst d'. cbn [configs tokens activeAccountID] in *.
    split; [exact Hcfg|]. split; [lia|exact Hidx].
  - rewrite run_forRange_configs. cbv beta iota. rewrite run_ret.
    intros Hrun. injection Hrun as <- _ _.
    cbn [with_credentials configs tokens activeAccountID].
    split; [reflexivity|]. split; [unfold len in Hge; lia|reflexivity].
Qed.

Lemma run_getClient_active d w n config token :
  activeAccountID d = Z.of_nat n + 1 ->
  Z.of_nat n < int_max ->
  configs d !! n = Some config ->
  tokens d !! n = Some token ->
  getClient lib d w
  = (Ret (gdrive_New lib (http.mkClient config token)), w)
  /\ getNativeClient d w = (Ret (http.mkClient config token), w).
Proof.
  intros Hi Hn Hc Ht. unfold int_max in Hn.
  pose proof (lookup_lt_Some _ _ _ Hc) as Hlc.
  pose proof (lookup_lt_Some _ _ _ Ht) as Hlt.
  unfold getClient, getNativeClient. rewrite !run_bind, !run_index.
  rewrite Hi. replace (Z.of_nat n + 1 - 1) with (Z.of_nat n) by lia.
  rewrite wrap_int_small by lia. rewrite Nat2Z.id.
  destruct (decide (0 <= Z.of_nat n < len (configs d))) as [_|Hbad];
    [|unfold len in Hbad; lia].
  rewrite Hc. cbv beta iota. rewrite !run_bind, !run_index.
  destruct (decide (0 <= Z.of_nat n < len (tokens d))) as [_|Hbad];
    [|unfold len in Hbad; lia].
  rewrite Nat2Z.id, Ht. split; reflexivity.
Qed.

(** X9: Once [NewDriveClient] has returned a pool for [N >= 1] accounts, the
    pool never runs out of range: after any number [k] of rotations both
    [getClient] and [getNativeClient] return, without a panic, the
    transport built from the configuration of account [(k mod N) + 1] and
    the token at the same position.  Tokens are paired with accounts by
    position only. *)
Theorem pool_stays_in_range
        (accts : list Account) (tokenPath chunkDir : string)
        (w w' : World) (drive : Drive) :
  NewDriveClient lib env accts tokenPath chunkDir w
  = (Ret (Some drive, None), w') ->
  (1 <= length accts)%nat ->
  len accts < int_max ->
  activeAccountID drive = 1
  /\ configs drive = map accountConfig accts
  /\ (length accts <= length (tokens drive))%nat
  /\ forall (k : nat) (w1 : World),
       exists drive_k w2 account token,
         rotateTimes k drive w1 = (Ret drive_k, w2)
         /\ accts !! (k mod length accts)%nat = Some account
         /\ tokens drive !! (k mod length accts)%nat = Some token
         /\ getClient lib drive_k w2
            = (Ret (gdrive_New lib
                      (http.mkClient (accountConfig account) token)), w2)
         /\ getNativeClient drive_k w2
            = (Ret (http.mkClient (accountConfig account) token), w2).
Proof.
  intros Hnew HN Hmax. unfold NewDriveClient in Hnew.
  rewrite run_bind in Hnew.
  match type of Hnew with
  | context [authorize lib env ?d0 tokenPath w] =>
    destruct (authorize lib env d0 tokenPath w)
      as [[[d1 err]|msg|msg|] w1] eqn:Hauth; try discriminate Hnew
  end.
  apply authorize_ret in Hauth as (Hcfg & Hlen & Hidx).
  cbn [configs accounts activeAccountID app] in Hcfg, Hlen, Hidx.
  destruct err as [e|]; cbv beta iota in Hnew; rewrite run_ret in Hnew;
    [discriminate Hnew|].
  injection Hnew as <- _.
  split; [exact Hidx|]. split; [exact Hcfg|]. split; [exact Hlen|].
  intros k w2.
  assert (Hlc : len (configs d1) = len accts)
    by (unfold len; by rewrite Hcfg, length_map).
  destruct (run_rotateTimes k d1 w2) as [w3 Hrot].
  { rewrite Hidx, Hlc. unfold len. lia. }
  { by rewrite Hlc. }
  rewrite Hidx, Hlc in Hrot.
  replace (1 - 1 + Z.of_nat k) with (Z.of_nat k) in Hrot by lia.
  assert (Hmod : Z.of_nat k mod len accts
                 = Z.of_nat (k mod length accts)%nat).
  { unfold len. rewrite Nat2Z.inj_mod. reflexivity. }
  rewrite Hmod in Hrot.
  assert (Hlt : (k mod length accts < length accts)%nat)
    by (apply Nat.mod_upper_bound; lia).
  destruct (lookup_lt_is_Some_2 accts (k mod length accts)%nat Hlt)
    as [account Hacc].
  destruct (lookup_lt_is_Some_2 (tokens d1) (k mod length accts)%nat
              ltac:(lia)) as [token Htok].
  exists (set_activeAccountID d1 (Z.of_nat (k mod length accts)%nat + 1)),
         w3, account, token.
  split; [exact Hrot|]. split; [exact Hacc|]. split; [exact Htok|].
  apply (run_getClient_active _ _ (k mod length accts)%nat).
  - reflexivity.
  - unfold len in Hmax. lia.
  - cbn [configs set_activeAccountID]. rewrite Hcfg, list_lookup_fmap, Hacc.
    reflexivity.
  - exact Htok.
Qed.

(** ** An empty account list *)

(** X10: With no account configured, [NewDriveClient] still returns a pool: it
    reads the token file, asks for no consent and writes nothing.  The
    pool has no configuration, so every later attempt to build a client
    panics with an index out of range, in each operation and in the
    poller, and a rotation leaves the index at 1 and changes nothing of
    that. *)
Theorem empty_account_list_panics (tokenPath chunkDir : string) (w : World) :
  exists drive,
    NewDriveClient lib env [] tokenPath chunkDir w
    = (Ret (Some drive, None), after w [EvReadFile tokenPath])
    /\ configs drive = [] /\ activeAccountID drive = 1
    /\ (forall w1 : World,
          getClient lib drive w1 = (Panic "index out of range", w1)
          /\ (forall id,
                GetObject lib env drive id w1
                = (Panic "index out of range", w1))
          /\ (forall fuel parentID,
                GetObjectsByParent lib env fuel drive parentID w1
                = (Panic "index out of range", w1))
          /\ (forall ticks fuel,
                startAutoRefresh lib env ticks fuel drive w1
                = (Panic "index out of range", w1))
          /\ exists w2,
               rotateAccounts drive w1 = (Ret drive, w2)).
Proof.
  set (drive := mkDrive 1 [] (loaded_tokens lib env (w_trace w) tokenPath)
                       [] 5000 chunkDir).
  exists drive. split; [|split; [reflexivity|split; [reflexivity|]]].
  - unfold NewDriveClient. rewrite run_bind.
    rewrite (run_authorize_reuse lib env).
    + run. reflexivity.
    + cbn [accounts]. unfold len. simpl. lia.
  - intros w1.
    assert (Hc : forall w0 : World,
               getClient lib drive w0 = (Panic "index out of range", w0)).
    { intros w0. unfold getClient. rewrite run_bind, run_index.
      reflexivity. }
    split; [apply Hc|]. split; [|split; [|split]].
    + intros id. unfold GetObject. by rewrite run_bind, Hc.
    + intros fuel parentID. unfold GetObjectsByParent.
      by rewrite run_bind, Hc.
    + intros ticks fuel. unfold startAutoRefresh. by rewrite run_bind, Hc.
    + eexists. unfold rotateAccounts. cbn. reflexivity.
Qed.

(** ** Authorization that does not complete *)

Lemma run_forRange_app {A B} (body : B -> A -> M B) (l1 l2 : list A) :
  forall acc w,
    forRange body acc (l1 ++ l2) w
    = match forRange body acc l1 w with
      | (Ret acc1, w1) => forRange body acc1 l2 w1
      | (Panic msg, w1) => (Panic msg, w1)
      | (Exit msg, w1) => (Exit msg, w1)
      | (Timeout, w1) => (Timeout, w1)
      end.
Proof.
  induction l1 as [|x l1 IH]; intros acc w; [reflexivity|].
  cbn [forRange app]. rewrite !run_bind.
  destruct (body acc x w) as [[acc1|msg|msg|] w1]; try reflexivity.
  apply IH.
Qed.

Lemma run_getTokenFromWeb_scan_error config e w :
  fmt_Scan env (w_trace w ++ consent_prompts lib config) = inl e ->
  getTokenFromWeb lib env config w
  = (Exit ("Unable to read authorization code " +:+ e),
     after w (consent_prompts lib config
              ++ [EvScan;
                  EvLog ("Unable to read authorization code " +:+ e)])).
Proof.
  intros Hscan. unfold getTokenFromWeb, fmt_Printf. run.
  cbn [w_trace after]. rewrite <- !app_assoc.
  match goal with
  | |- context [fmt_Scan env ?h] =>
    change h with (w_trace w ++ consent_prompts lib config)
  end.
  rewrite Hscan. run. unfold log_Fatalf, after. cbn [w_trace w_cache].
  by rewrite <- !app_assoc.
Qed.

Lemma run_getTokenFromWeb_exchange_error config code e w :
  fmt_Scan env (w_trace w ++ consent_prompts lib config) = inr code ->
  oauth2_Exchange env (w_trace w ++ consent_prompts lib config ++ [EvScan])
                  config code = inl e ->
  getTokenFromWeb lib env config w
  = (Exit ("Unable to retrieve token from web " +:+ e),
     after w (consent_events lib config code
              ++ [EvLog ("Unable to retrieve token from web " +:+ e)])).
Proof.
  intros Hscan Hex. unfold getTokenFromWeb, fmt_Printf. run.
  cbn [w_trace after]. rewrite <- !app_assoc.
  match goal with
  | |- context [fmt_Scan env ?h] =>
    change h with (w_trace w ++ consent_prompts lib config)
  end.
  rewrite Hscan. run. cbn [w_trace after]. rewrite <- !app_assoc.
  match goal with
  | |- context [oauth2_Exchange env ?h config code] =>
    change h with (w_trace w ++ consent_prompts lib config ++ [EvScan])
  end.
  rewrite Hex. unfold log_Fatalf, after, consent_events.
  cbn [w_trace w_cache]. by rewrite <- !app_assoc.
Qed.

Lemma requests_consent_prompts config :
  exchange_requests (consent_prompts lib config) = []
  /\ write_requests (consent_prompts lib config) = [].
Proof. split; reflexivity. Qed.

(** X11: When the stored tokens are fewer than the accounts and the consent
    exchange of some account fails, after those of the accounts [before] it
    completed, the process exits inside [authorize]: with
    "Unable to read authorization code ..." when the operator's code cannot
    be read (no exchange is attempted for that account), with
    "Unable to retrieve token from web ..." when the exchange is refused.
    The accounts behind it are never prompted and the token file is not
    written, so the tokens obtained so far are lost. *)
Theorem authorize_exits_on_failed_consent
        (d : Drive) (tokenPath : string) (w : World)
        (before behind : list Account) (account : Account)
        (codes : list string) (toks : list oauth2.Token) (e : error) :
  let config := accountConfig account in
  let h := w_trace w ++ [EvReadFile tokenPath]
           ++ consents_events lib before codes in
  accounts d = before ++ account :: behind ->
  len (loaded_tokens lib env (w_trace w) tokenPath) < len (accounts d) ->
  consents lib env (w_trace w ++ [EvReadFile tokenPath]) before codes toks ->
  (fmt_Scan env (h ++ consent_prompts lib config) = inl e ->
   exists evs,
     authorize lib env d tokenPath w
     = (Exit ("Unable to read authorization code " +:+ e), after w evs)
     /\ write_requests evs = []
     /\ exchange_requests evs = zip (map accountConfig before) codes)
  /\ (forall code,
        fmt_Scan env (h ++ consent_prompts lib config) = inr code ->
        oauth2_Exchange env (h ++ consent_prompts lib config ++ [EvScan])
                        config code = inl e ->
        exists evs,
          authorize lib env d tokenPath w
          = (Exit ("Unable to retrieve token from web " +:+ e), after w evs)
          /\ write_requests evs = []
          /\ exchange_requests evs
             = zip (map accountConfig before) codes ++ [(config, code)]).
Proof.
  intros config h Hacc Hlt Hcons.
  destruct (consents_length lib env _ _ _ _ Hcons) as [Hlc _].
  destruct (requests_consents_events lib before codes Hlc) as [Hex Hwr].
  set (d0 := set_tokens d (loaded_tokens lib env (w_trace w) tokenPath)).
  assert (Hstart : forall res w1,
    forRange
      (fun d account =>
         let config := accountConfig account in
         token ← getTokenFromWeb lib env config;
         let d := set_configs d (configs d ++ [config]) in
         let d := set_tokens d (tokens d ++ [token]) in
         mret d)
      (with_credentials d0 (configs d0 ++ map accountConfig before)
         (tokens d0 ++ toks))
      (account :: behind)
      (after w ([EvReadFile tokenPath] ++ consents_events lib before codes))
    = (Exit res, w1) ->
    authorize lib env d tokenPath w = (Exit res, w1)).
  { intros res w1 Hloop. unfold authorize.
    rewrite run_bind, run_getTokens. cbv beta iota zeta. fold d0.
    destruct (decide (len (tokens d0) < len (accounts d0))) as [_|Hn];
      [|exfalso; apply Hn; exact Hlt].
    rewrite run_bind. change (accounts d0) with (accounts d).
    rewrite Hacc, run_forRange_app.
    rewrite (run_forRange_consent lib env before codes toks);
      [|exact Hcons].
    rewrite after_after. cbv beta iota zeta in Hloop. by rewrite Hloop. }
  split.
  - intros Hscan. eexists. split; [|split].
    + apply Hstart. cbn [forRange]. rewrite !run_bind.
      rewrite (run_getTokenFromWeb_scan_error _ e).
      * rewrite after_after. reflexivity.
      * exact Hscan.
    + rewrite !write_requests_app, Hwr. reflexivity.
    + rewrite !exchange_requests_app, Hex. simpl. by rewrite app_nil_r.
  - intros code Hscan Hexch. eexists. split; [|split].
    + apply Hstart. cbn [forRange]. rewrite !run_bind.
      rewrite (run_getTokenFromWeb_exchange_error _ code e).
      * rewrite after_after. reflexivity.
      * exact Hscan.
      * exact Hexch.
    + rewrite !write_requests_app, Hwr. reflexivity.
    + rewrite !exchange_requests_app, Hex. reflexivity.
Qed.

(** X12: When every consent exchange completed but the tokens do not
    serialize, [NewDriveClient] returns no pool and the error
    "Could not store tokens, ..."; the token file is not written, so the
    tokens just obtained are lost. *)
Theorem NewDriveClient_serialization_error
        (accts : list Account) (tokenPath chunkDir : string) (w : World)
        (codes : list string) (toks : list oauth2.Token) (e : error) :
  let loaded := loaded_tokens lib env (w_trace w) tokenPath in
  len loaded < len accts ->
  consents lib env (w_trace w ++ [EvReadFile tokenPath]) accts codes toks ->
  json_Marshal lib (loaded ++ toks) = inl e ->
  exists evs,
    NewDriveClient lib env accts tokenPath chunkDir w
    = (Ret (None, Some ("Could not store tokens, " +:+ e)), after w evs)
    /\ write_requests evs = []
    /\ exchange_requests evs = zip (map accountConfig accts) codes.
Proof.
  intros loaded Hlt Hcons Hj.
  destruct (consents_length lib env _ _ _ _ Hcons) as [Hlc _].
  destruct (requests_consents_events lib accts codes Hlc) as [Hex Hwr].
  exists ([EvReadFile tokenPath] ++ consents_events lib accts codes).
  split; [|split].
  - unfold NewDriveClient, authorize.
    rewrite !run_bind, run_getTokens. cbv beta iota zeta. fold loaded.
    set (d0 := set_tokens _ loaded).
    destruct (decide (len (tokens d0) < len (accounts d0))) as [_|Hn];
      [|exfalso; apply Hn; exact Hlt].
    rewrite run_bind. change (accounts d0) with accts.
    pose proof (run_forRange_consent lib env accts codes toks d0
                  (after w [EvReadFile tokenPath]) Hcons) as Hloop.
    cbv beta iota zeta in Hloop. rewrite Hloop.
    rewrite after_after, run_bind, run_storeTokens.
    cbn [with_credentials tokens d0 set_tokens]. rewrite Hj. reflexivity.
  - rewrite write_requests_app, Hwr. reflexivity.
  - rewrite exchange_requests_app, Hex. reflexivity.
Qed.

(** ** Starting again on the written token file *)

(** X13: A first start on an empty token store exchanges and writes [N >= 1]
    tokens.  If the token file then reads back as written and
    deserialization inverts serialization, a second start returns the
    same pool after reading the file only: no consent exchange and no
    write. *)
Theorem NewDriveClient_second_start_reuses_tokens
        (accts : list Account) (tokenPath chunkDir : string) (w : World)
        (codes : list string) (toks : list oauth2.Token) (j : bytes)
        (err : option error) :
  let evs := [EvReadFile tokenPath] ++ consents_events lib accts codes
             ++ [EvWriteFile tokenPath j 420] in
  (1 <= length accts)%nat ->
  loaded_tokens lib env (w_trace w) tokenPath = [] ->
  consents lib env (w_trace w ++ [EvReadFile tokenPath]) accts codes toks ->
  json_Marshal lib toks = inr j ->
  ioutil_ReadFile env (w_trace w ++ evs) tokenPath = inr j ->
  json_Unmarshal lib j [] = (toks, err) ->
  exists drive,
    NewDriveClient lib env accts tokenPath chunkDir w
    = (Ret (Some drive, None), after w evs)
    /\ tokens drive = toks
    /\ NewDriveClient lib env accts tokenPath chunkDir (after w evs)
       = (Ret (Some drive, None), after w (evs ++ [EvReadFile tokenPath])).
Proof.
  intros evs HN Hempty Hcons Hj Hread Hun.
  destruct (consents_length lib env _ _ _ _ Hcons) as [_ Hlt].
  set (d0 := {| activeAccountID := 1; accounts := accts; tokens := [];
                configs := []; maxDelay := 5000; chunkDir := chunkDir |}).
  exists (with_credentials d0 (map accountConfig accts) toks).
  split; [|split; [reflexivity|]].
  - unfold NewDriveClient. fold d0. rewrite run_bind.
    rewrite (run_authorize_exchange lib env d0 tokenPath w codes toks j).
    + rewrite Hempty. run. reflexivity.
    + rewrite Hempty. unfold len. simpl. lia.
    + exact Hcons.
    + by rewrite Hempty.
  - unfold NewDriveClient. fold d0. rewrite run_bind.
    rewrite (run_authorize_reuse lib env d0 tokenPath (after w evs)).
    + unfold loaded_tokens. cbn [w_trace after]. rewrite Hread, Hun.
      run. reflexivity.
    + unfold loaded_tokens. cbn [w_trace after]. rewrite Hread, Hun.
      cbn [fst accounts d0]. unfold len. lia.
Qed.

(** ** What the poller touches *)

Lemma adds_only_ret {A} P (a : A) : adds_only P (mret a : M A).
Proof.
  intros w. exists []. simpl. rewrite app_nil_r. by repeat split.
Qed.

Lemma adds_only_timeout {A} P : adds_only P (timeout : M A).
Proof.
  intros w. exists []. simpl. rewrite app_nil_r. by repeat split.
Qed.

Lemma adds_only_call {A} (P : Event -> Prop) e (answer : list Event -> A) :
  P e -> adds_only P (call e answer).
Proof.
  intros He w. exists [e]. simpl. split; [reflexivity|].
  split; [by constructor|exact I].
Qed.

Lemma adds_only_bind {A B} P (m : M A) (f : A -> M B) :
  adds_only P m -> (forall a, adds_only P (f a)) -> adds_only P (m ≫= f).
Proof.
  intros Hm Hf w. rewrite run_bind.
  destruct (Hm w) as (evs & Hevs & HP & Hres).
  destruct (m w) as [[a|msg|msg|] w1]; simpl in Hevs, Hres; try done.
  - destruct (Hf a w1) as (evs' & Hevs' & HP' & Hres').
    exists (evs ++ evs'). rewrite Hevs', Hevs, app_assoc.
    split; [reflexivity|]. split; [by apply Forall_app|exact Hres'].
  - exists evs. by repeat split.
Qed.

Lemma poller_event_refresh_items client items : forall h c,
  Forall (poller_event client) (refresh_items lib env h c items).1.2.
Proof.
  induction items as [|file items IH]; intros h c; [constructor|].
  cbn [refresh_items].
  set (object := mapped_object file (mapper_mtime lib env file h)).
  destruct (Cache_Store c object) as [c' err].
  specialize (IH (h ++ refresh_events lib file object err) c').
  destruct (refresh_items lib env
              (h ++ refresh_events lib file object err) c' items)
    as [[objects evs'] c''].
  cbn [fst snd] in *. apply Forall_app. split; [|exact IH].
  unfold refresh_events, mapper_events.
  destruct (time_Parse_RFC3339 lib (gdrive.ModifiedDate file)); destruct err;
    repeat constructor.
Qed.

Lemma poller_event_changesQuery client checkDate pageToken :
  poller_event client (EvList (changesQuery client checkDate pageToken)).
Proof.
  unfold changesQuery. simpl.
  destruct (decide ("" ≠ pageToken)); (split; [reflexivity|by eexists]).
Qed.

Lemma adds_only_refreshPages client checkDate fuel : forall pageToken,
  adds_only (poller_event client)
            (refreshPages lib env fuel client checkDate pageToken).
Proof.
  induction fuel as [|fuel IH]; intros pageToken; simpl.
  - apply adds_only_timeout.
  - apply adds_only_bind.
    + apply adds_only_call. apply poller_event_changesQuery.
    + intros [err|r]; [apply adds_only_ret|].
      apply adds_only_bind.
      * intros w. rewrite run_forRange_refresh. eexists.
        split; [reflexivity|].
        split; [apply poller_event_refresh_items|exact I].
      * intros _. destruct (decide ("" = gdrive.NextPageToken r));
          [apply adds_only_ret|apply IH].
Qed.

Lemma adds_only_refreshTick client lastCheck fuel :
  adds_only (poller_event client)
            (refreshTick lib env fuel client lastCheck).
Proof.
  unfold refreshTick, log_Printf, emit, Now.
  apply adds_only_bind; [by apply adds_only_call|]. intros _.
  apply adds_only_bind; [by apply adds_only_call|]. intros now.
  apply adds_only_bind; [apply adds_only_refreshPages|]. intros _.
  apply adds_only_ret.
Qed.

Lemma adds_only_refreshLoop client fuel ticks : forall lastCheck,
  adds_only (poller_event client)
            (refreshLoop lib env ticks fuel client lastCheck).
Proof.
  induction ticks as [|ticks IH]; intros lastCheck; simpl.
  - apply adds_only_ret.
  - unfold emit. apply adds_only_bind; [by apply adds_only_call|].
    intros _. apply adds_only_bind; [apply adds_only_refreshTick|].
    intros t. apply IH.
Qed.

(** X14: Once the poller holds its client, whatever the service and the cache
    answer and for any number of ticks, it never panics and never exits
    the process, and all it does is log, read the clock, wait for ticks,
    store objects in the cache and send list requests filtered on a
    modification time, every one of them with the client it obtained at
    its start, before the first tick: it fetches no metadata, downloads
    nothing, prompts for nothing and never writes the token file. *)
Theorem startAutoRefresh_footprint
        (d : Drive) (w : World) (client : gdrive.Service)
        (ticks fuel : nat) :
  getClient lib d w = (Ret (inr client), w) ->
  exists evs,
    w_trace (snd (startAutoRefresh lib env ticks fuel d w))
    = w_trace w ++ evs
    /\ Forall (poller_event client) evs
    /\ no_crash (fst (startAutoRefresh lib env ticks fuel d w))
    /\ Forall (fun call => gdrive.service call = client) (list_requests evs)
    /\ write_requests evs = [] /\ exchange_requests evs = [].
Proof.
  intros Hc.
  assert (Hrun : startAutoRefresh lib env ticks fuel d w
                 = (lastCheck ← Now env;
                    refreshLoop lib env ticks fuel client lastCheck;;
                    mret tt) w).
  { unfold startAutoRefresh. rewrite run_bind, Hc. reflexivity. }
  rewrite Hrun.
  assert (Hadds : adds_only (poller_event client)
                    (lastCheck ← Now env;
                     refreshLoop lib env ticks fuel client lastCheck;;
                     mret tt)).
  { unfold Now. apply adds_only_bind; [by apply adds_only_call|].
    intros t. apply adds_only_bind; [apply adds_only_refreshLoop|].
    intros _. apply adds_only_ret. }
  destruct (Hadds w) as (evs & Hevs & HP & Hres).
  exists evs. split; [exact Hevs|]. split; [exact HP|].
  split; [exact Hres|].
  clear Hevs Hres Hrun Hadds. induction HP as [|e evs He _ IH].
  - by repeat split.
  - destruct IH as (Hls & Hwr & Hex).
    destruct e; simpl in He; try done; simpl; repeat split; try done.
    constructor; [apply He|exact Hls].
Qed.

(** ** A tick whose pages can all be fetched *)

Lemma run_refreshPages_to_end client checkDate pages :
  forall fuel tok w,
    changes_to_end lib env client checkDate (w_trace w) (w_cache w) tok
                   pages ->
    (length pages <= fuel)%nat ->
    refreshPages lib env fuel client checkDate tok w
    = (Ret tt,
       mkWorld
         (w_trace w
          ++ (refresh_pages lib env client checkDate (w_trace w) (w_cache w)
                            tok pages).1.2)
         (refresh_pages lib env client checkDate (w_trace w) (w_cache w)
                        tok pages).2).
Proof.
  induction pages as [|r pages IH]; intros fuel tok w Hans Hfuel; [done|].
  destruct fuel as [|fuel]; [simpl in Hfuel; lia|].
  cbn [changes_to_end] in Hans. destruct Hans as [Hr Hrest].
  cbn [refreshPages refresh_pages].
  fold (changesQuery client checkDate tok).
  set (q := changesQuery client checkDate tok) in *.
  run. rewrite Hr. run. rewrite run_forRange_refresh.
  cbn [w_trace w_cache after].
  set (R := refresh_items lib env (w_trace w ++ [EvList q]) (w_cache w)
                          (gdrive.Items r)) in *.
  cbv beta iota.
  destruct pages as [|r' pages].
  - destruct (decide ("" = gdrive.NextPageToken r)) as [_|Hne];
      [|congruence].
    run. cbn [refresh_pages fst snd]. by rewrite !app_nil_r, <- app_assoc.
  - cbv zeta in Hrest. destruct Hrest as [Htok Hrest].
    destruct (decide ("" = gdrive.NextPageToken r)) as [Heq|_];
      [congruence|].
    rewrite (IH fuel); [| |simpl in *; lia];
      cbn [w_trace w_cache]; rewrite <- ?app_assoc.
    + cbn [fst snd]. by rewrite <- ?app_assoc.
    + exact Hrest.
Qed.

Lemma refresh_pages_spec client checkDate pages : forall h c tok,
  let R := refresh_pages lib env client checkDate h c tok pages in
  Forall2 (fun object file => exists mtime, object = mapped_object file mtime)
          R.1.1 (concat (map gdrive.Items pages))
  /\ store_requests R.1.2 = R.1.1
  /\ length (list_requests R.1.2) = length pages
  /\ R.2 = stored c R.1.1.
Proof.
  induction pages as [|r pages IH]; intros h c tok.
  - simpl. repeat split. constructor.
  - cbn [refresh_pages]. cbv zeta.
    set (q := changesQuery client checkDate tok).
    pose proof (refresh_items_spec lib env (gdrive.Items r)
                  (h ++ [EvList q]) c) as Hitems.
    destruct (refresh_items lib env (h ++ [EvList q]) c (gdrive.Items r))
      as [[objects evs] c1].
    destruct Hitems as (Hshape & Hst & Hls & Hc).
    cbn [fst snd].
    specialize (IH (h ++ [EvList q] ++ evs) c1 (gdrive.NextPageToken r)).
    cbv zeta in IH. destruct IH as (Hshape' & Hst' & Hls' & Hc').
    split; [|split; [|split]].
    + simpl. by apply Forall2_app.
    + rewrite !store_requests_app, Hst, Hst'. reflexivity.
    + rewrite !list_requests_app, Hls, !length_app, Hls'. reflexivity.
    + rewrite Hc', Hc. unfold stored. by rewrite foldl_app.
Qed.

(** X15: In a tick whose requests are answered with [n >= 1] pages of which
    only the last carries no further page token, the poller (whenever [n]
    pages are allowed) maps every item of every page and hands it to
    [Cache.Store], in page order and in each page's order, whether or not
    the cache reports errors on the way; it sends exactly [n] list
    requests, and it returns as new checkpoint the time it read before the
    first of them. *)
Theorem refreshTick_stores_every_page
        (client : gdrive.Service) (lastCheck : Time) (w : World)
        (pages : list gdrive.FileList) (fuel : nat) :
  let checkDate := time_Format_RFC3339 lib lastCheck in
  let now := time_Now env (w_trace w ++ [EvLog "Checking for updates..."]) in
  let h1 := w_trace w ++ [EvLog "Checking for updates..."; EvNow] in
  let R := refresh_pages lib env client checkDate h1 (w_cache w) "" pages in
  let evs := [EvLog "Checking for updates..."; EvNow] ++ R.1.2 in
  changes_to_end lib env client checkDate h1 (w_cache w) "" pages ->
  (length pages <= fuel)%nat ->
  refreshTick lib env fuel client lastCheck w
  = (Ret now, mkWorld (w_trace w ++ evs) R.2)
  /\ Forall2 (fun object file =>
                exists mtime, object = mapped_object file mtime)
             R.1.1 (concat (map gdrive.Items pages))
  /\ store_requests evs = R.1.1
  /\ R.2 = stored (w_cache w) R.1.1
  /\ length (list_requests evs) = length pages.
Proof.
  intros checkDate now h1 R evs Hans Hfuel.
  destruct (refresh_pages_spec client checkDate pages h1 (w_cache w) "")
    as (Hshape & Hst & Hls & Hc).
  fold R in Hshape, Hst, Hls, Hc.
  split; [|split; [exact Hshape|split; [|split; [exact Hc|]]]].
  - unfold refreshTick, log_Printf, Now. run. simpl app.
    pose proof (run_refreshPages_to_end client checkDate pages fuel ""
                  (after w [EvLog "Checking for updates..."; EvNow])
                  Hans Hfuel) as Hpages.
    fold checkDate. rewrite Hpages. run.
    cbn [w_trace w_cache after]. fold h1. fold R.
    subst evs h1 now. by rewrite <- !app_assoc.
  - subst evs. rewrite store_requests_app, Hst. reflexivity.
  - subst evs. rewrite list_requests_app, length_app, Hls. reflexivity.
Qed.

(** ** The checkpoint *)

(** X16: However the pages of a tick turn out, the tick first logs, then reads
    the clock, then sends a list request without page token that filters
    on the checkpoint it was given; and whenever the tick returns, the
    checkpoint it hands to the next tick is that clock reading, taken
    before the request was sent. *)
Theorem refreshTick_checkpoint_before_request
        (client : gdrive.Service) (lastCheck : Time) (fuel : nat)
        (w : World) :
  exists res w' rest,
    refreshTick lib env (S fuel) client lastCheck w = (res, w')
    /\ w_trace w'
       = w_trace w
         ++ [EvLog "Checking for updates..."; EvNow;
             EvList (changesQuery client
                       (time_Format_RFC3339 lib lastCheck) "")]
         ++ rest
    /\ gdrive.pageToken
         (changesQuery client (time_Format_RFC3339 lib lastCheck) "") = None
    /\ forall t, res = Ret t ->
         t = time_Now env (w_trace w ++ [EvLog "Checking for updates..."]).
Proof.
  unfold refreshTick, log_Printf, Now. run.
  destruct (run_refreshPages_first lib env client
              (time_Format_RFC3339 lib lastCheck) "" fuel
              (after w [EvLog "Checking for updates..."; EvNow]))
    as (res & w' & rest & Hrun & Htrace).
  simpl app. rewrite Hrun.
  destruct res as [[]|msg|msg|]; run; eexists _, _, rest;
    (split; [reflexivity|]);
    (split; [rewrite Htrace; simpl; by rewrite <- app_assoc|]);
    (split; [reflexivity|]); intros t Ht; by inversion Ht.
Qed.

End MoreProperties.

(** * The further properties on the sample worlds *)

Section MoreSampleRuns.
Local Existing Instance Sample.cache.

Lemma client_error_returned_before_any_request_witness :
  getClient SampleMore.libNoService (Sample.drive 1) Sample.world
  = (Ret (inl "client is nil"), Sample.world)
  /\ GetObjectsByParent SampleMore.libNoService Sample.envNames 3
                        (Sample.drive 1) "root" Sample.world
     = (Ret ([], Some "client is nil"), Sample.world)
  /\ startAutoRefresh SampleMore.libNoService Sample.envNames 5 3
                      (Sample.drive 1) Sample.world
     = (Ret tt,
        after Sample.world
              [EvLog "Could not get client for auto refreshing"]).
Proof.
  assert (Hc : getClient SampleMore.libNoService (Sample.drive 1)
                 Sample.world
               = (Ret (inl "client is nil"), Sample.world)) by reflexivity.
  destruct (client_error_returned_before_any_request
              SampleMore.libNoService Sample.envNames (Sample.drive 1)
              Sample.world _ Hc) as (_ & _ & Hlist & _ & Hpoll).
  split; [exact Hc|]. split; [apply Hlist|apply Hpoll].
Defined.

Lemma request_error_returned_witness :
  getClient Sample.lib (Sample.drive 1) Sample.world
  = (Ret (inr Sample.clientA), Sample.world)
  /\ GetObject Sample.lib SampleMore.envDown (Sample.drive 1) "a"
               Sample.world
     = (Ret (None, Some "googleapi: Error 503"),
        after Sample.world [EvGet Sample.clientA "a"])
  /\ FileSize Sample.lib SampleMore.envDown (Sample.drive 1) "a"
              Sample.world
     = (Ret (0, Some "dial tcp: i/o timeout"),
        after Sample.world [EvDownload Sample.clientA "a"]).
Proof.
  assert (Hc : getClient Sample.lib (Sample.drive 1) Sample.world
               = (Ret (inr Sample.clientA), Sample.world)) by reflexivity.
  destruct (request_error_returned Sample.lib SampleMore.envDown
              (Sample.drive 1) Sample.world Sample.clientA Hc)
    as (Hget & Hdl & _).
  split; [exact Hc|]. split; [by apply Hget|by apply Hdl].
Defined.

Lemma GetObject_resolves_zero_size_witness :
  getClient Sample.lib (Sample.drive 1) Sample.world
  = (Ret (inr Sample.clientA), Sample.world)
  /\ Files_Get_Do SampleMore.envChunked (w_trace Sample.world)
                  Sample.clientA "b" = inr Sample.fileB
  /\ gdrive.FileSize Sample.fileB = 0
  /\ exists object,
       GetObject Sample.lib SampleMore.envChunked (Sample.drive 1) "b"
                 Sample.world
       = (Ret (Some object, None),
          after Sample.world
                [EvGet Sample.clientA "b"; EvDownload Sample.clientA "b";
                 EvNow])
       /\ Size object = 18446744073709551615.
Proof.
  assert (Hc : getClient Sample.lib (Sample.drive 1) Sample.world
               = (Ret (inr Sample.clientA), Sample.world)) by reflexivity.
  assert (Hb : Files_Get_Do SampleMore.envChunked (w_trace Sample.world)
                 Sample.clientA "b" = inr Sample.fileB) by reflexivity.
  split; [exact Hc|]. split; [exact Hb|]. split; [reflexivity|].
  destruct (GetObject_resolves_zero_size
              Sample.lib SampleMore.envChunked (Sample.drive 1) "b"
              Sample.world Sample.clientA Sample.fileB
              (http.mkResponse 200 (-1)) Hc Hb eq_refl eq_refl eq_refl)
    as (object & Hrun & _ & _ & Hminus & _).
  exists object. split; [exact Hrun|]. by apply Hminus.
Defined.

Lemma GetObjectsByParent_lists_every_page_witness :
  getClient Sample.lib (Sample.drive 1) Sample.world
  = (Ret (inr Sample.clientA), Sample.world)
  /\ pages_to_end Sample.lib SampleMore.envThreePages Sample.clientA "root"
       (w_trace Sample.world) ""
       [gdrive.mkFileList [Sample.fileA; Sample.fileB] "t1";
        gdrive.mkFileList [Sample.fileC] "t2";
        gdrive.mkFileList [Sample.fileD] ""]
  /\ exists files evs,
       GetObjectsByParent Sample.lib SampleMore.envThreePages 3
                          (Sample.drive 1) "root" Sample.world
       = (Ret (files, None), after Sample.world evs)
       /\ map ID files = ["a"; "b"; "c"; "d"]
       /\ map gdrive.pageToken (list_requests evs)
          = [None; Some "t1"; Some "t2"].
Proof.
  assert (Hc : getClient Sample.lib (Sample.drive 1) Sample.world
               = (Ret (inr Sample.clientA), Sample.world)) by reflexivity.
  assert (Hp : pages_to_end Sample.lib SampleMore.envThreePages
                 Sample.clientA "root" (w_trace Sample.world) ""
                 [gdrive.mkFileList [Sample.fileA; Sample.fileB] "t1";
                  gdrive.mkFileList [Sample.fileC] "t2";
                  gdrive.mkFileList [Sample.fileD] ""]).
  { cbn [pages_to_end].
    split; [reflexivity|]. split; [discriminate|].
    split; [reflexivity|]. split; [discriminate|].
    split; reflexivity. }
  split; [exact Hc|]. split; [exact Hp|].
  destruct (GetObjectsByParent_lists_every_page
              Sample.lib SampleMore.envThreePages (Sample.drive 1) "root"
              Sample.world Sample.clientA _ 3 Hc Hp)
    as (files & evs & Hrun & _ & _ & Hreq); [simpl; lia|].
  exists files, evs. split; [exact Hrun|].
  assert (Hrun' := Hrun). vm_compute in Hrun'.
  injection Hrun' as Hfiles Hevs. split.
  - rewrite <- Hfiles. reflexivity.
  - rewrite Hreq. reflexivity.
Defined.

Lemma GetObjectsByParent_unbounded_paging_witness :
  getClient Sample.lib (Sample.drive 1) Sample.world
  = (Ret (inr Sample.clientA), Sample.world)
  /\ (forall h call, exists r,
         Files_List_Do SampleMore.envEndless h call = inr r
         /\ gdrive.NextPageToken r <> "")
  /\ exists evs,
       GetObjectsByParent Sample.lib SampleMore.envEndless 7
                          (Sample.drive 1) "root" Sample.world
       = (Timeout, after Sample.world evs)
       /\ length (list_requests evs) = 7%nat.
Proof.
  assert (Hc : getClient Sample.lib (Sample.drive 1) Sample.world
               = (Ret (inr Sample.clientA), Sample.world)) by reflexivity.
  assert (Hmore : forall h call, exists r,
             Files_List_Do SampleMore.envEndless h call = inr r
             /\ gdrive.NextPageToken r <> "").
  { intros h call. eexists. split; [reflexivity|discriminate]. }
  split; [exact Hc|]. split; [exact Hmore|].
  exact (GetObjectsByParent_unbounded_paging
           Sample.lib SampleMore.envEndless (Sample.drive 1) "root"
           Sample.world Sample.clientA Hc Hmore 7%nat).
Defined.

Lemma rotateAccounts_full_round_witness :
  1 <= activeAccountID (Sample.drive 2) <= len (configs (Sample.drive 2))
  /\ len (configs (Sample.drive 2)) < int_max
  /\ (exists w',
        rotateTimes 3 (Sample.drive 2) Sample.world
        = (Ret (Sample.drive 2), w'))
  /\ (exists d' w',
        rotateTimes 2 (Sample.drive 2) Sample.world = (Ret d', w')
        /\ activeAccountID d' <> 2).
Proof.
  assert (Hi : 1 <= activeAccountID (Sample.drive 2)
               <= len (configs (Sample.drive 2)))
    by (unfold len; simpl; lia).
  assert (HN : len (configs (Sample.drive 2)) < int_max) by reflexivity.
  destruct (rotateAccounts_full_round (Sample.drive 2) Sample.world Hi HN)
    as [Hround Hless].
  split; [exact Hi|]. split; [exact HN|]. split; [exact Hround|].
  destruct (Hless 2%nat) as (d' & w' & Hrun & Hne & _); [simpl; lia|].
  exists d', w'. split; [exact Hrun|exact Hne].
Defined.

Lemma pool_stays_in_range_witness :
  NewDriveClient Sample.lib Sample.envNames Sample.accountsABC "token.json"
                 "/tmp/chunks" Sample.world
  = (Ret (Some (Sample.drive 1), None),
     snd (NewDriveClient Sample.lib Sample.envNames Sample.accountsABC
                         "token.json" "/tmp/chunks" Sample.world))
  /\ (1 <= length Sample.accountsABC)%nat
  /\ len Sample.accountsABC < int_max
  /\ exists drive_k w2,
       rotateTimes 4 (Sample.drive 1) Sample.world = (Ret drive_k, w2)
       /\ getClient Sample.lib drive_k w2
          = (Ret (inr (Sample.clientOf "B" "sb" (Sample.tokenOf "B"))), w2).
Proof.
  assert (Hnew :
    NewDriveClient Sample.lib Sample.envNames Sample.accountsABC "token.json"
                   "/tmp/chunks" Sample.world
    = (Ret (Some (Sample.drive 1), None),
       snd (NewDriveClient Sample.lib Sample.envNames Sample.accountsABC
                           "token.json" "/tmp/chunks" Sample.world)))
    by reflexivity.
  assert (HN : (1 <= length Sample.accountsABC)%nat) by (simpl; lia).
  assert (Hmax : len Sample.accountsABC < int_max) by reflexivity.
  split; [exact Hnew|]. split; [exact HN|]. split; [exact Hmax|].
  destruct (pool_stays_in_range Sample.lib Sample.envNames
              Sample.accountsABC "token.json" "/tmp/chunks" Sample.world _
              (Sample.drive 1) Hnew HN Hmax) as (_ & _ & _ & Hrot).
  destruct (Hrot 4%nat Sample.world)
    as (drive_k & w2 & account & token & Hrun & Ha & Ht & Hc & _).
  exists drive_k, w2. split; [exact Hrun|].
  rewrite Hc. injection Ha as <-. injection Ht as <-. reflexivity.
Defined.

Lemma authorize_exits_on_failed_consent_witness :
  accounts Sample.drive0
  = [mkAccount "A" "sa"] ++ mkAccount "B" "sb" :: [mkAccount "C" "sc"]
  /\ consents Sample.lib SampleMore.envOneCode
       (w_trace Sample.world ++ [EvReadFile "token.json"])
       [mkAccount "A" "sa"] ["4/AAA"] [Sample.tokenOf "A"]
  /\ (exists evs,
        authorize Sample.lib SampleMore.envOneCode Sample.drive0
                  "token.json" Sample.world
        = (Exit "Unable to read authorization code EOF",
           after Sample.world evs)
        /\ write_requests evs = []
        /\ map (fun x => oauth2.ClientID (fst x)) (exchange_requests evs)
           = ["A"])
  /\ (exists evs,
        authorize Sample.lib SampleMore.envRefusesB Sample.drive0
                  "token.json" Sample.world
        = (Exit "Unable to retrieve token from web invalid_grant",
           after Sample.world evs)
        /\ write_requests evs = []
        /\ map (fun x => oauth2.ClientID (fst x)) (exchange_requests evs)
           = ["A"; "B"]).
Proof.
  assert (Hacc : accounts Sample.drive0
                 = [mkAccount "A" "sa"] ++ mkAccount "B" "sb"
                   :: [mkAccount "C" "sc"]) by reflexivity.
  assert (Hcons : consents Sample.lib SampleMore.envOneCode
                    (w_trace Sample.world ++ [EvReadFile "token.json"])
                    [mkAccount "A" "sa"] ["4/AAA"] [Sample.tokenOf "A"])
    by (cbn [consents]; repeat split; reflexivity).
  split; [exact Hacc|]. split; [exact Hcons|]. split.
  - destruct (authorize_exits_on_failed_consent
                Sample.lib SampleMore.envOneCode Sample.drive0 "token.json"
                Sample.world [mkAccount "A" "sa"] [mkAccount "C" "sc"]
                (mkAccount "B" "sb") ["4/AAA"] [Sample.tokenOf "A"] "EOF"
                Hacc) as [Hscan _].
    + unfold len. simpl. lia.
    + exact Hcons.
    + destruct Hscan as (evs & Hrun & Hwr & Hex); [reflexivity|].
      exists evs. split; [exact Hrun|]. split; [exact Hwr|].
      rewrite Hex. reflexivity.
  - destruct (authorize_exits_on_failed_consent
                Sample.lib SampleMore.envRefusesB Sample.drive0 "token.json"
                Sample.world [mkAccount "A" "sa"] [mkAccount "C" "sc"]
                (mkAccount "B" "sb") ["4/AAA"] [Sample.tokenOf "A"]
                "invalid_grant" Hacc) as [_ Hexch].
    + unfold len. simpl. lia.
    + cbn [consents]. repeat split; reflexivity.
    + destruct (Hexch "4/AAA") as (evs & Hrun & Hwr & Hex);
        [reflexivity|reflexivity|].
      exists evs. split; [exact Hrun|]. split; [exact Hwr|].
      rewrite Hex. reflexivity.
Defined.

Lemma NewDriveClient_serialization_error_witness :
  len (loaded_tokens SampleMore.libNoMarshal Sample.envNames
                     (w_trace Sample.world) "token.json")
  < len Sample.accountsABC
  /\ exists evs,
       NewDriveClient SampleMore.libNoMarshal Sample.envNames
                      Sample.accountsABC "token.json" "/tmp/chunks"
                      Sample.world
       = (Ret (None, Some "Could not store tokens, json: unsupported value"),
          after Sample.world evs)
       /\ write_requests evs = []
       /\ length (exchange_requests evs) = 3%nat.
Proof.
  assert (Hlt : len (loaded_tokens SampleMore.libNoMarshal Sample.envNames
                                   (w_trace Sample.world) "token.json")
                < len Sample.accountsABC) by reflexivity.
  split; [exact Hlt|].
  destruct (NewDriveClient_serialization_error
              SampleMore.libNoMarshal Sample.envNames Sample.accountsABC
              "token.json" "/tmp/chunks" Sample.world SampleMore.codes3
              (map (fun a => Sample.tokenOf (ClientID a)) Sample.accountsABC)
              "json: unsupported value" Hlt)
    as (evs & Hrun & Hwr & Hex).
  - cbn [consents Sample.accountsABC SampleMore.codes3 map].
    repeat split; reflexivity.
  - reflexivity.
  - exists evs. split; [exact Hrun|]. split; [exact Hwr|].
    rewrite Hex. reflexivity.
Defined.

Lemma NewDriveClient_second_start_reuses_tokens_witness :
  loaded_tokens Sample.lib SampleMore.envDisk (w_trace Sample.world)
                "token.json" = []
  /\ json_Unmarshal Sample.lib (list_byte_of_string "ABC") []
     = (map (fun a => oauth2.mkToken (ClientID a) "Bearer" "" 0)
            Sample.accountsABC, None)
  /\ exists drive evs,
       NewDriveClient Sample.lib SampleMore.envDisk Sample.accountsABC
                      "token.json" "/tmp/chunks" Sample.world
       = (Ret (Some drive, None), after Sample.world evs)
       /\ length (exchange_requests evs) = 3%nat
       /\ NewDriveClient Sample.lib SampleMore.envDisk Sample.accountsABC
                         "token.json" "/tmp/chunks" (after Sample.world evs)
          = (Ret (Some drive, None),
             after Sample.world (evs ++ [EvReadFile "token.json"])).
Proof.
  assert (Hempty : loaded_tokens Sample.lib SampleMore.envDisk
                     (w_trace Sample.world) "token.json" = [])
    by reflexivity.
  assert (Hun : json_Unmarshal Sample.lib (list_byte_of_string "ABC") []
                = (map (fun a => oauth2.mkToken (ClientID a) "Bearer" "" 0)
                       Sample.accountsABC, None)) by reflexivity.
  split; [exact Hempty|]. split; [exact Hun|].
  destruct (NewDriveClient_second_start_reuses_tokens
              Sample.lib SampleMore.envDisk Sample.accountsABC
              "token.json" "/tmp/chunks" Sample.world SampleMore.codes3
              (map (fun a => oauth2.mkToken (ClientID a) "Bearer" "" 0)
                   Sample.accountsABC)
              (list_byte_of_string "ABC") None)
    as (drive & Hfirst & _ & Hsecond).
  - simpl. lia.
  - exact Hempty.
  - cbn [consents Sample.accountsABC SampleMore.codes3 map].
    repeat split; reflexivity.
  - reflexivity.
  - reflexivity.
  - exact Hun.
  - eexists drive, _. split; [exact Hfirst|].
    split; [reflexivity|exact Hsecond].
Defined.

Lemma startAutoRefresh_footprint_witness :
  getClient Sample.lib (Sample.drive 1) Sample.world
  = (Ret (inr Sample.clientA), Sample.world)
  /\ exists evs,
       w_trace (snd (startAutoRefresh Sample.lib Sample.envChanges 2 3
                                      (Sample.drive 1) Sample.world))
       = w_trace Sample.world ++ evs
       /\ Forall (fun call => gdrive.service call = Sample.clientA)
                 (list_requests evs)
       /\ length (list_requests evs) = 4%nat
       /\ write_requests evs = [].
Proof.
  assert (Hc : getClient Sample.lib (Sample.drive 1) Sample.world
               = (Ret (inr Sample.clientA), Sample.world)) by reflexivity.
  split; [exact Hc|].
  destruct (startAutoRefresh_footprint
              Sample.lib Sample.envChanges (Sample.drive 1) Sample.world
              Sample.clientA 2 3 Hc)
    as (evs & Hevs & _ & _ & Hls & Hwr & _).
  exists evs. split; [exact Hevs|]. split; [exact Hls|].
  split; [|exact Hwr].
  assert (Hevs' := Hevs). vm_compute in Hevs'. rewrite <- Hevs'.
  reflexivity.
Defined.

Lemma refreshTick_stores_every_page_witness :
  changes_to_end Sample.lib SampleMore.envThreePages Sample.clientA
    Sample.stamp [EvLog "Checking for updates..."; EvNow] ∅ ""
    [gdrive.mkFileList [Sample.fileA; Sample.fileB] "t1";
     gdrive.mkFileList [Sample.fileC] "t2";
     gdrive.mkFileList [Sample.fileD] ""]
  /\ exists w',
       refreshTick Sample.lib SampleMore.envThreePages 3 Sample.clientA
                   1488369600 Sample.world
       = (Ret 1500000001, w')
       /\ map ID (store_requests (w_trace w')) = ["a"; "b"; "c"; "d"]
       /\ length (list_requests (w_trace w')) = 3%nat
       /\ ID <$> (w_cache w' : gmap string APIObject) !! "d" = Some "d".
Proof.
  assert (Hp :
    changes_to_end Sample.lib SampleMore.envThreePages Sample.clientA
      Sample.stamp [EvLog "Checking for updates..."; EvNow] ∅ ""
      [gdrive.mkFileList [Sample.fileA; Sample.fileB] "t1";
       gdrive.mkFileList [Sample.fileC] "t2";
       gdrive.mkFileList [Sample.fileD] ""]).
  { cbn [changes_to_end]. cbv zeta.
    split; [reflexivity|]. split; [discriminate|].
    split; [reflexivity|]. split; [discriminate|].
    split; reflexivity. }
  split; [exact Hp|].
  pose proof (refreshTick_stores_every_page
                Sample.lib SampleMore.envThreePages Sample.clientA
                1488369600 Sample.world
                [gdrive.mkFileList [Sample.fileA; Sample.fileB] "t1";
                 gdrive.mkFileList [Sample.fileC] "t2";
                 gdrive.mkFileList [Sample.fileD] ""] 3) as Htick.
  cbv zeta in Htick.
  destruct Htick as (Hrun & _); [exact Hp|simpl; lia|].
  eexists. split; [exact Hrun|]. repeat split; reflexivity.
Defined.

End MoreSampleRuns.
